(** * markdown-preview-enhanced: the preview session core

    A shallow embedding of [src/preview-content-provider.ts]
    (class [MarkdownPreviewEnhancedView] and the process-wide
    [MARKDOWN_ENGINES_MAP]) together with the properties of its
    coordination layer: scroll synchronisation, the render decision,
    the engine cache, the message handlers and the upload hint
    resolver. *)

From Stdlib Require Import ZArith QArith Ascii Permutation Sorted.
From stdpp Require Import base strings list gmap.

Local Open Scope Z_scope.

(** ** JavaScript values *)

Module Js.

(** A JavaScript number. Finite values are kept as exact rationals:
    the handlers below only subtract and divide small integers, compare
    against zero and test truthiness, none of which depends on how the
    quotient is rounded to a double (rounding is monotone and keeps 0
    and 1 fixed). [+0] and [-0] are both [Fin 0]. *)
Inductive num : Type :=
| NaN
| Infinity (negative : bool)
| Fin (q : Q).

(** [a / b] on integer-valued operands. *)
Definition divZ (a b : Z) : num :=
  if b =? 0 then
    if a =? 0 then NaN else Infinity (a <? 0)
  else Fin (inject_Z a / inject_Z b).

Definition inUnitInterval (n : num) : Prop :=
  match n with
  | Fin q => (0 <= q /\ q <= 1)%Q
  | _ => False
  end.

Definition isZero (n : num) : Prop :=
  match n with
  | Fin q => (q == 0)%Q
  | _ => False
  end.

Inductive value : Type :=
| Undefined
| Null
| Bool (b : bool)
| Number (n : num)
| Str (s : string)
| Object (ref : nat).

(** ECMAScript [ToBoolean]. *)
Definition truthy (v : value) : bool :=
  match v with
  | Undefined | Null => false
  | Bool b => b
  | Number NaN => false
  | Number (Infinity _) => true
  | Number (Fin q) => negb (Qeq_bool q 0)
  | Str s => negb (String.eqb s "")
  | Object _ => true
  end.

(** [a || b] *)
Definition or (a b : value) : value := if truthy a then a else b.

(** Exceptions and rejections. *)
Inductive result (A : Type) : Type :=
| Ok (a : A)
| Throw (e : string).
Global Arguments Ok {A} a.
Global Arguments Throw {A} e.

Definition TypeError : string := "TypeError".

(** *** Strings *)

Fixpoint startsWith (pat s : string) : bool :=
  match pat, s with
  | EmptyString, _ => true
  | String a pat', String b s' => Ascii.eqb a b && startsWith pat' s'
  | String _ _, EmptyString => false
  end.

(** Position of the first occurrence, [None] for JavaScript's [-1]. *)
Fixpoint search (pat s : string) : option nat :=
  if startsWith pat s then Some 0%nat
  else match s with
       | EmptyString => None
       | String _ s' => S <$> search pat s'
       end.

(** Position of the last occurrence. *)
Fixpoint searchLast (pat s : string) : option nat :=
  match s with
  | EmptyString => if startsWith pat s then Some 0%nat else None
  | String _ s' =>
      match searchLast pat s' with
      | Some k => Some (S k)
      | None => if startsWith pat s then Some 0%nat else None
      end
  end.

Definition position (o : option nat) : Z :=
  match o with
  | Some k => Z.of_nat k
  | None => -1
  end.

Definition indexOf (s pat : string) : Z := position (search pat s).
Definition lastIndexOf (s pat : string) : Z := position (searchLast pat s).

(** [s.slice(from, to)], negative arguments counting from the end. *)
Definition sliceBound (len i : Z) : Z :=
  if i <? 0 then Z.max (len + i) 0 else Z.min i len.

Definition slice (s : string) (from to : Z) : string :=
  let len := Z.of_nat (String.length s) in
  let a := sliceBound len from in
  let b := sliceBound len to in
  String.substring (Z.to_nat a) (Z.to_nat (Z.max (b - a) 0)) s.

(** The replacement text of [String.prototype.replace] for a pattern
    without capture groups: [$$], [$&], [$`] and [$'] are expanded,
    every other character stands for itself. *)
Fixpoint getSubstitution (matched before after repl : string) : string :=
  match repl with
  | EmptyString => EmptyString
  | String c r =>
      if Ascii.eqb c "$" then
        match r with
        | String d r' =>
            if Ascii.eqb d "$" then
              String "$" (getSubstitution matched before after r')
            else if Ascii.eqb d "&" then
              matched +:+ getSubstitution matched before after r'
            else if Ascii.eqb d "`" then
              before +:+ getSubstitution matched before after r'
            else if Ascii.eqb d "'" then
              after +:+ getSubstitution matched before after r'
            else String c (getSubstitution matched before after r)
        | EmptyString => String c EmptyString
        end
      else String c (getSubstitution matched before after r)
  end.

(** [s.replace(pat, repl)] with a string pattern: first occurrence only. *)
Definition replace (s pat repl : string) : string :=
  match search pat s with
  | None => s
  | Some k =>
      let before := String.substring 0 k s in
      let after :=
        String.substring (k + String.length pat)
          (String.length s - (k + String.length pat)) s in
      before +:+ getSubstitution pat before after repl +:+ after
  end.

(** The regular expression [/\[[xX]\]/]: does a match start here? *)
Definition checkedBoxAt (s : string) : bool :=
  startsWith "[x]" s || startsWith "[X]" s.

Fixpoint searchCheckedBox (s : string) : option nat :=
  if checkedBoxAt s then Some 0%nat
  else match s with
       | EmptyString => None
       | String _ s' => S <$> searchCheckedBox s'
       end.

(** [s.replace(/\[[xX]\]/, repl)] for a replacement without [$]. *)
Definition replaceCheckedBox (s repl : string) : string :=
  match searchCheckedBox s with
  | None => s
  | Some k =>
      String.substring 0 k s +:+ repl +:+
      String.substring (k + 3) (String.length s - (k + 3)) s
  end.

End Js.

(** ** The host text buffer *)

Module TextBuffer.

Definition LF : ascii := "010"%char.

(** [buffer.lines]: the rows of the document, without line endings. *)
Abbreviation lines := (list string).

(** [buffer.lines[row]]; [None] is [undefined]. *)
Definition lineAt (ls : lines) (row : Z) : option string :=
  if row <? 0 then None else ls !! Z.to_nat row.

Fixpoint splitLines (s : string) : list string :=
  match s with
  | EmptyString => [EmptyString]
  | String c s' =>
      if Ascii.eqb c LF then EmptyString :: splitLines s'
      else match splitLines s' with
           | l :: ls => String c l :: ls
           | [] => [String c EmptyString]
           end
  end.

Fixpoint hasLineFeed (s : string) : bool :=
  match s with
  | EmptyString => false
  | String c s' => Ascii.eqb c LF || hasLineFeed s'
  end.

Definition lastRow (ls : lines) : nat := pred (length ls).

Definition rowText (ls : lines) (row : nat) : string :=
  default EmptyString (ls !! row).

(** [buffer.clipPosition]: rows and columns outside the buffer are
    moved to the nearest valid position. *)
Definition clipPosition (ls : lines) (p : Z * Z) : nat * nat :=
  let '(row, col) := p in
  if row <? 0 then (0%nat, 0%nat)
  else if Z.of_nat (lastRow ls) <? row then
    (lastRow ls, String.length (rowText ls (lastRow ls)))
  else if col <? 0 then (Z.to_nat row, 0%nat)
  else (Z.to_nat row,
        Nat.min (Z.to_nat col) (String.length (rowText ls (Z.to_nat row)))).

Fixpoint appendToLast (ls : list string) (suffix : string) : list string :=
  match ls with
  | [] => [suffix]
  | [l] => [l +:+ suffix]
  | l :: ls' => l :: appendToLast ls' suffix
  end.

(** Modelled from the spec: the host document model's "replace a line
    range's text" operation ([buffer.setTextInRange]), which belongs to
    the editor and is not part of this repository. The range is clipped
    to the buffer, the text before its start and after its end is kept,
    and the new text is split into rows at line feeds. *)
Definition setTextInRange (ls : lines) (start stop : Z * Z) (text : string)
  : lines :=
  let '(sr, sc) := clipPosition ls start in
  let '(er, ec) := clipPosition ls stop in
  let before := String.substring 0 sc (rowText ls sr) in
  let after :=
    String.substring ec (String.length (rowText ls er) - ec) (rowText ls er) in
  take sr ls ++ appendToLast (splitLines (before +:+ text)) after
    ++ drop (S er) ls.

(** The empty row that is left at the end of the buffer when row [row],
    rewritten together with a line feed, is the last one. *)
Definition trailingRow (ls : lines) (row : nat) : lines :=
  if decide (S row = length ls) then [EmptyString] else [].

End TextBuffer.

(** ** The preview session *)

Module Preview.
Import Js.

(** What the session reads from the bound [TextEditor]. Screen rows and
    the screen-to-buffer row mapping depend on soft wrapping and folds,
    which the host owns; they are taken as the editor reports them. *)
Record TextEditor : Type := {
  getPath : string;
  buffer_lines : TextBuffer.lines;
  getLineCount : Z;
  getFirstVisibleScreenRow : Z;
  getLastVisibleScreenRow : Z;
  getLastScreenRow : Z;
  getLastBufferRow : Z;
  bufferRowForScreenRow : Z -> Z;
}.

Definition withLines (ed : TextEditor) (ls : TextBuffer.lines) : TextEditor :=
  {| getPath := getPath ed;
     buffer_lines := ls;
     getLineCount := getLineCount ed;
     getFirstVisibleScreenRow := getFirstVisibleScreenRow ed;
     getLastVisibleScreenRow := getLastVisibleScreenRow ed;
     getLastScreenRow := getLastScreenRow ed;
     getLastBufferRow := getLastBufferRow ed;
     bufferRowForScreenRow := bufferRowForScreenRow ed |}.

(** The fields of [MarkdownPreviewEnhancedView] that the handlers below
    read or write. [isPreviewInPresentationMode] is the engine's flag,
    [scrollSync] and [imageFolderPath] are the session's configuration. *)
Record View : Type := {
  editor : option TextEditor;
  scrollSync : bool;
  imageFolderPath : string;
  isPreviewInPresentationMode : bool;
  JSAndCssFiles : list string;
  editorScrollDelay : Z;
  zoomLevel : value;
}.

Definition withEditor (v : View) (ed : option TextEditor) : View :=
  {| editor := ed;
     scrollSync := scrollSync v;
     imageFolderPath := imageFolderPath v;
     isPreviewInPresentationMode := isPreviewInPresentationMode v;
     JSAndCssFiles := JSAndCssFiles v;
     editorScrollDelay := editorScrollDelay v;
     zoomLevel := zoomLevel v |}.

Definition withJSAndCssFiles (v : View) (fs : list string) : View :=
  {| editor := editor v;
     scrollSync := scrollSync v;
     imageFolderPath := imageFolderPath v;
     isPreviewInPresentationMode := isPreviewInPresentationMode v;
     JSAndCssFiles := fs;
     editorScrollDelay := editorScrollDelay v;
     zoomLevel := zoomLevel v |}.

Definition withZoomLevel (v : View) (z : value) : View :=
  {| editor := editor v;
     scrollSync := scrollSync v;
     imageFolderPath := imageFolderPath v;
     isPreviewInPresentationMode := isPreviewInPresentationMode v;
     JSAndCssFiles := JSAndCssFiles v;
     editorScrollDelay := editorScrollDelay v;
     zoomLevel := z |}.

(** Messages handed to [this.postMessage]. *)
Inductive Message : Type :=
| startParsingMarkdown
| changeTextEditorSelection (line : Z) (topRatio : num)
| updateHTML (html tocHTML : string) (totalLineCount : Z)
             (sourceUri : string) (id class : value).

(** What a handler does to the outside world, in order. *)
Inductive Effect : Type :=
| postMessage (m : Message)
| loadPreview
| addError (e : string)
| addInfo (text : string)
| copyFile (source destination : string)
| insertText (text : string)
| unhandledRejection (e : string).

(** *** Document to preview: the cursor handler of [initEditorEvents] *)

Record CursorEvent : Type := {
  newScreenPosition_row : Z;
  newBufferPosition_row : Z;
}.

Definition topRatioOf (screenRow firstVisibleScreenRow lastVisibleScreenRow : Z)
  : num :=
  divZ (screenRow - firstVisibleScreenRow)
       (lastVisibleScreenRow - firstVisibleScreenRow).

(** [now] is [Date.now()] at the time the event is handled. *)
Definition onDidChangeCursorPosition (v : View) (now : Z) (event : CursorEvent)
  : result (list Effect) :=
  if negb (scrollSync v) then Ok []
  else if now <? editorScrollDelay v then Ok []
  else
    match editor v with
    | None => Throw TypeError
    | Some ed =>
        let screenRow := newScreenPosition_row event in
        let firstVisibleScreenRow := getFirstVisibleScreenRow ed in
        let lastVisibleScreenRow := getLastVisibleScreenRow ed in
        let topRatio :=
          topRatioOf screenRow firstVisibleScreenRow lastVisibleScreenRow in
        Ok [postMessage
              (changeTextEditorSelection (newBufferPosition_row event) topRatio)]
    end.

(** *** [syncPreview] *)

Definition half : num := Fin (1 # 2).

Definition syncPreview (v : View) : list Effect :=
  match editor v with
  | None => []
  | Some ed =>
      let firstVisibleScreenRow := getFirstVisibleScreenRow ed in
      if firstVisibleScreenRow =? 0 then
        [postMessage (changeTextEditorSelection 0 (Fin 0))]
      else
        let lastVisibleScreenRow := getLastVisibleScreenRow ed in
        if lastVisibleScreenRow =? getLastScreenRow ed then
          [postMessage (changeTextEditorSelection (getLastBufferRow ed) (Fin 1))]
        else
          let midBufferRow :=
            bufferRowForScreenRow ed
              ((lastVisibleScreenRow + firstVisibleScreenRow) / 2) in
          [postMessage (changeTextEditorSelection midBufferRow half)]
  end.

(** *** [renderMarkdown] *)

Record YamlConfig : Type := {
  isPresentationMode : value;
  yaml_id : value;
  yaml_class : value;
}.

Record ParseResult : Type := {
  html : string;
  tocHTML : string;
  parsed_JSAndCssFiles : list string;
  yamlConfig : YamlConfig;
}.

(** How the promise returned by [engine.parseMD] settles. *)
Inductive Settled (A : Type) : Type :=
| Resolved (a : A)
| Rejected (e : string).
Global Arguments Resolved {A} a.
Global Arguments Rejected {A} e.

Section RenderDecision.

(** [mume.utility.isArrayEqual], a helper of the engine package. *)
Variable isArrayEqual : list string -> list string -> bool.

(** The [.then] callback of [renderMarkdown]. *)
Definition renderMarkdown_then (v : View) (r : ParseResult)
  : result (View * list Effect) :=
  if negb (isArrayEqual (parsed_JSAndCssFiles r) (JSAndCssFiles v))
     || truthy (isPresentationMode (yamlConfig r))
  then Ok (withJSAndCssFiles v (parsed_JSAndCssFiles r), [loadPreview])
  else
    match editor v with
    | None => Throw TypeError
    | Some ed =>
        Ok (v, [postMessage
                  (updateHTML (html r) (tocHTML r) (getLineCount ed)
                     (getPath ed)
                     (or (yaml_id (yamlConfig r)) (Str ""))
                     (or (yaml_class (yamlConfig r)) (Str "")))])
    end.

(** [renderMarkdown], run up to the settlement of the [parseMD]
    promise. The promise chain is [parseMD(...).then(callback)] with
    no rejection handler, so a rejection, or an exception of the
    callback, ends as an unhandled rejection. *)
Definition renderMarkdown (v : View) (parsed : Settled ParseResult)
  : View * list Effect :=
  match editor v with
  | None => (v, [])
  | Some _ =>
      if isPreviewInPresentationMode v then (v, [loadPreview])
      else
        match parsed with
        | Resolved r =>
            match renderMarkdown_then v r with
            | Ok (v', effects) =>
                (v', postMessage startParsingMarkdown :: effects)
            | Throw e =>
                (v, [postMessage startParsingMarkdown; unhandledRejection e])
            end
        | Rejected e =>
            (v, [postMessage startParsingMarkdown; unhandledRejection e])
        end
  end.

End RenderDecision.

(** Modelled from the spec: [mume.utility.isArrayEqual], which lives in
    the engine package and is not under src/. The spec has the new
    dependency list "compared by set-equality (order-insensitive)"
    against the stored one: each list's members all occur in the other. *)
Definition isArrayEqual (x y : list string) : bool :=
  forallb (fun a => existsb (String.eqb a) y) x
  && forallb (fun b => existsb (String.eqb b) x) y.

(** *** [setZoomLevel] and its dispatch entry *)

Definition setZoomLevel (v : View) (z : value) : View :=
  withZoomLevel v (or z (Number (Fin 1))).

(** [args[i]] of a command envelope. *)
Definition arg (args : list value) (i : nat) : value :=
  default Undefined (args !! i).

(** [MESSAGE_DISPATCH_EVENTS['setZoomLevel'].apply(this, args)] with
    [args = [sourceUri, zoomLevel]]. *)
Definition dispatch_setZoomLevel (v : View) (args : list value) : View :=
  setZoomLevel v (arg args 1).

(** *** The task list checkbox handler *)

Definition lineFeed : string := String TextBuffer.LF EmptyString.

Definition setLines (v : View) (ed : TextEditor) (ls : TextBuffer.lines)
  : View :=
  withEditor v (Some (withLines ed ls)).

(** The rewritten text of the clicked line. *)
Definition toggleTaskLine (line : string) : string :=
  if bool_decide (is_Some (search "[ ]" line))   (* line.match(/\[ \]/) *)
  then replace line "[ ]" "[x]"
  else replaceCheckedBox line "[ ]".

(** [MESSAGE_DISPATCH_EVENTS['clickTaskListCheckbox']]. A live editor
    always has a buffer, so the handler's [!buffer] guard never fires. *)
Definition clickTaskListCheckbox (v : View) (dataLine : Z) : result View :=
  match editor v with
  | None => Ok v
  | Some ed =>
      match TextBuffer.lineAt (buffer_lines ed) dataLine with
      | None => Throw TypeError
      | Some line =>
          let line := toggleTaskLine line in
          Ok (setLines v ed
                (TextBuffer.setTextInRange (buffer_lines ed)
                   (dataLine, 0) (dataLine + 1, 0) (line +:+ lineFeed)))
      end
  end.

(** *** The upload hint resolver *)

Definition replaceHint (v : View) (bufferRow : Z) (hint withStr : string)
  : result (bool * View) :=
  match editor v with
  | None => Ok (false, v)
  | Some ed =>
      match TextBuffer.lineAt (buffer_lines ed) bufferRow with
      | None => Throw TypeError
      | Some textLine =>
          if 0 <=? indexOf textLine hint then
            Ok (true,
                setLines v ed
                  (TextBuffer.setTextInRange (buffer_lines ed)
                     (bufferRow, 0)
                     (bufferRow, Z.of_nat (String.length textLine))
                     (replace textLine hint withStr)))
          else Ok (false, v)
      end
  end.

(** Does row [row] exist and lack the hint? *)
Definition hintNotOnRow (ls : TextBuffer.lines) (hint : string) (row : Z)
  : bool :=
  match TextBuffer.lineAt ls row with
  | Some textLine => negb (0 <=? indexOf textLine hint)
  | None => false
  end.

(** The document after the hint on row [row], which reads [textLine],
    has been replaced. *)
Definition hintReplaced (ls : TextBuffer.lines) (row : Z)
  (textLine hint withStr : string) : TextBuffer.lines :=
  TextBuffer.setTextInRange ls (row, 0)
    (row, Z.of_nat (String.length textLine)) (replace textLine hint withStr).

(** The description derived from a file name. The test is on the
    truthiness of [lastIndexOf('.')], so [-1] (no dot) takes the slice. *)
Definition descriptionOf (imageFileName : string) : string :=
  if negb (lastIndexOf imageFileName "." =? 0)
  then slice imageFileName 0 (lastIndexOf imageFileName ".")
  else imageFileName.

Definition imageMarkdown (description url : string) : string :=
  "![" +:+ description +:+ "](" +:+ url +:+ ")".

(** The [while (i <= bufferRow + 20)] loop, with [n] the number of rows
    from [i] up to [bufferRow + 20]. *)
Fixpoint scanRows (n : nat) (i : Z) (v : View) (hint withStr : string)
  : result View :=
  match n with
  | O => Ok v
  | S n' =>
      match replaceHint v i hint withStr with
      | Throw e => Throw e
      | Ok (true, v') => Ok v'
      | Ok (false, v') => scanRows n' (i + 1) v' hint withStr
      end
  end.

Definition setUploadedImageURL (v : View)
  (imageFileName url hint : string) (bufferRow : Z) : result View :=
  let description := descriptionOf imageFileName in
  let withStr := imageMarkdown description url in
  match replaceHint v bufferRow hint withStr with
  | Throw e => Throw e
  | Ok (true, v') => Ok v'
  | Ok (false, v') =>
      let i := bufferRow - 20 in
      scanRows (Z.to_nat (bufferRow + 20 - i + 1)) i v' hint withStr
  end.

(** The settlement of the upload promise in [uploadImageFile]:
    [.then(url => setUploadedImageURL(...)).catch(err => addError(err))]. *)
Definition uploadImageFile_settled (v : View)
  (imageFileName hint : string) (bufferRow : Z) (upload : Settled string)
  : View * list Effect :=
  match upload with
  | Resolved url =>
      match setUploadedImageURL v imageFileName url hint bufferRow with
      | Ok v' => (v', [])
      | Throw e => (v, [addError e])
      end
  | Rejected e => (v, [addError e])
  end.

(** *** [pasteImageFile] *)

(** What [fs.stat] reports for the destination path. *)
Inductive Stat : Type :=
| statFound
| statENOENT
| statFailed (e : string).

(** The url written into the document: wrapped in angle brackets when
    it holds a space. *)
Definition pastedUrl (folder imageFileName : string) : string :=
  let url := folder +:+ "/" +:+ imageFileName in
  if 0 <=? indexOf url " " then "<" +:+ url +:+ ">" else url.

Section Paste.

(** Node's [path] module. *)
Variables (basename dirname : string -> string)
          (resolve : string -> string -> string).

Definition firstCharIs (s : string) (c : ascii) : bool :=
  match s with
  | String a _ => Ascii.eqb a c
  | EmptyString => false
  end.

(** The collision branch: the description and the new file name.
    [random] is [Math.random().toString(36).substr(2, 9)]. *)
Definition renameOnCollision (imageFileName random : string)
  : string * string :=
  let lastDotOffset := lastIndexOf imageFileName "." in
  let uid := "_" +:+ random in
  if 0 <? lastDotOffset then
    (slice imageFileName 0 lastDotOffset,
     slice imageFileName 0 lastDotOffset +:+ uid
       +:+ slice imageFileName lastDotOffset
             (Z.of_nat (String.length imageFileName)))
  else (imageFileName, imageFileName +:+ uid).

(** [pasteImageFile], run through the [fs.mkdir] and [fs.stat]
    callbacks; [stat] is what [fs.stat] reports for [destPath]. *)
Definition pasteImageFile (v : View) (projectDirectoryPath : string)
  (imageFilePath random : string) (stat : Stat) : list Effect :=
  match editor v with
  | None => []
  | Some ed =>
      let imageFileName := basename imageFilePath in
      let assetDirectoryPath :=
        if firstCharIs (imageFolderPath v) "/"
        then resolve projectDirectoryPath ("." +:+ imageFolderPath v)
        else resolve (dirname (getPath ed)) (imageFolderPath v) in
      let destPath := resolve assetDirectoryPath (basename imageFilePath) in
      let finish (imageFileName description : string) : list Effect :=
        let url := pastedUrl (imageFolderPath v) imageFileName in
        [addInfo ("Image " +:+ imageFileName
                    +:+ " has been copied to folder "
                    +:+ assetDirectoryPath);
         insertText (imageMarkdown description url)] in
      match stat with
      | statFound =>
          let '(description, imageFileName) :=
            renameOnCollision imageFileName random in
          copyFile imageFilePath (resolve assetDirectoryPath imageFileName)
            :: finish imageFileName description
      | statENOENT =>
          copyFile imageFilePath destPath
            :: finish imageFileName (descriptionOf imageFileName)
      | statFailed e => [addError e]
      end
  end.

End Paste.

End Preview.

(** ** The process-wide engine table *)

Module EngineCache.

(** An engine object: [ref] is its identity as an object, the other
    fields are the constructor's arguments. *)
Record MarkdownEngine : Type := {
  ref : nat;
  filePath : string;
  projectDirectoryPath : string;
}.

(** [MARKDOWN_ENGINES_MAP] is an object literal, so [key in map] and
    [map[key]] also see the members of [Object.prototype]. *)
Definition objectPrototypeKeys : list string :=
  ["constructor"; "__proto__"; "hasOwnProperty"; "isPrototypeOf";
   "propertyIsEnumerable"; "toLocaleString"; "toString"; "valueOf";
   "__defineGetter__"; "__defineSetter__"; "__lookupGetter__";
   "__lookupSetter__"].

Inductive Slot : Type :=
| engineSlot (e : MarkdownEngine)
| prototypeSlot (name : string).

(** The table and the log of every [new mume.MarkdownEngine(...)]
    evaluated so far, oldest first. *)
Record Process : Type := {
  MARKDOWN_ENGINES_MAP : gmap string MarkdownEngine;
  constructed : list MarkdownEngine;
}.

Definition start : Process :=
  {| MARKDOWN_ENGINES_MAP := ∅; constructed := [] |}.

(** [key in MARKDOWN_ENGINES_MAP] *)
Definition hasProperty (m : gmap string MarkdownEngine) (key : string) : bool :=
  bool_decide (is_Some (m !! key))
  || bool_decide (key ∈ objectPrototypeKeys).

(** [MARKDOWN_ENGINES_MAP[key]] for a key that is [in] the table. *)
Definition getProperty (m : gmap string MarkdownEngine) (key : string) : Slot :=
  match m !! key with
  | Some e => engineSlot e
  | None => prototypeSlot key
  end.

(** The outcome of one lookup: what [this.engine] is set to, and
    whether the constructor ran. *)
Record Lookup : Type := {
  engine : Slot;
  constructs : bool;
}.

(** The "init markdown engine" step of [initEvents], for the editor
    path [path]. *)
Definition initEngine (p : Process) (path projectDir : string)
  : Lookup * Process :=
  if hasProperty (MARKDOWN_ENGINES_MAP p) path then
    ({| engine := getProperty (MARKDOWN_ENGINES_MAP p) path;
        constructs := false |}, p)
  else
    let e := {| ref := length (constructed p);
                filePath := path;
                projectDirectoryPath := projectDir |} in
    ({| engine := engineSlot e; constructs := true |},
     {| MARKDOWN_ENGINES_MAP := <[path := e]> (MARKDOWN_ENGINES_MAP p);
        constructed := constructed p ++ [e] |}).

(** A run of the process: editor binds, from any session, in order.
    Each bind is the editor path and the session's project directory. *)
Fixpoint binds (p : Process) (requests : list (string * string))
  : list Lookup * Process :=
  match requests with
  | [] => ([], p)
  | (path, projectDir) :: rest =>
      let '(l, p') := initEngine p path projectDir in
      let '(ls, p'') := binds p' rest in
      (l :: ls, p'')
  end.

Definition constructedFor (p : Process) (path : string) : list MarkdownEngine :=
  filter (fun e => filePath e = path) (constructed p).

(** The construction log and the table agree: an engine was constructed
    for a path exactly when the path is stored, and then only once. *)
Definition consistent (p : Process) : Prop :=
  forall path,
    constructedFor p path
    = match MARKDOWN_ENGINES_MAP p !! path with
      | Some e => [e]
      | None => []
      end.

End EngineCache.

(** ** The programmatic scroll animation *)

Module ScrollAnimation.

(** Pixel offsets are doubles. The animation's control flow only needs
    the operations below, so they are kept abstract: every statement
    about the animation holds for any arithmetic, rounding included.
    [clampScrollTop] is what the editor element makes of the argument
    of [setScrollTop]. *)
Class Pixels : Type := {
  number : Type;
  ofZ : Z -> number;
  add : number -> number -> number;
  sub : number -> number -> number;
  mul : number -> number -> number;
  div : number -> number -> number;
  looseEq : number -> number -> bool;
  clampScrollTop : number -> number;
}.

(** Exact rational arithmetic, for running the model. *)
Definition exactPixels : Pixels :=
  {| number := Q;
     ofZ := inject_Z;
     add := Qplus;
     sub := Qminus;
     mul := Qmult;
     div := Qdiv;
     looseEq := Qeq_bool;
     clampScrollTop := fun q => if Qle_bool 0 q then q else 0%Q |}.

Section Animation.
Context {P : Pixels}.

Definition delay : Z := 10.
Definition scrollDuration : Z := 120.

(** A pending [setTimeout] callback of [helper]: its handle and the
    variables its closure captured. *)
Record Timer : Type := {
  handle : positive;
  duration : Z;
  scrollTop : number;
}.

(** The part of the session, of the editor element and of the event
    loop that the animation touches. Timer handles are the positive
    integers [setTimeout] returns. *)
Record State : Type := {
  editorBound : bool;
  screenRowOf : Z -> Z;
  lineHeightInPixels : number;
  offsetHeight : number;
  editorScrollDelay : Z;
  scrollTimeout : option positive;
  editorScrollTop : number;
  timers : list Timer;
  nextHandle : positive;
}.

Definition update (st : State) (scrollDelay : Z)
  (timeout : option positive) (top : number) (pending : list Timer)
  (next : positive) : State :=
  {| editorBound := editorBound st;
     screenRowOf := screenRowOf st;
     lineHeightInPixels := lineHeightInPixels st;
     offsetHeight := offsetHeight st;
     editorScrollDelay := scrollDelay;
     scrollTimeout := timeout;
     editorScrollTop := top;
     timers := pending;
     nextHandle := next |}.

(** [clearTimeout(h)] *)
Definition clearTimeout (h : positive) (pending : list Timer) : list Timer :=
  filter (fun t => handle t ≠ h) pending.

(** [helper(duration)]: [this.scrollTimeout = setTimeout(callback, delay)]. *)
Definition helper (st : State) (d : Z) (target : number) : State :=
  let h := nextHandle st in
  update st (editorScrollDelay st) (Some h) (editorScrollTop st)
    (timers st ++ [{| handle := h; duration := d; scrollTop := target |}])
    (Pos.succ h).

(** The offset the callback steps to. *)
Definition stepped (st : State) (t : Timer) : number :=
  let difference := sub (scrollTop t) (editorScrollTop st) in
  let perTick := mul (div difference (ofZ (duration t))) (ofZ delay) in
  add (editorScrollTop st) perTick.

(** The body of the timer callback, at clock reading [now]. *)
Definition callback (st : State) (t : Timer) (now : Z) : State :=
  if duration t <=? 0 then
    update st (now + 500) (scrollTimeout st)
      (clampScrollTop (scrollTop t)) (timers st) (nextHandle st)
  else
    let s := stepped st t in
    let st' :=
      update st (now + 500) (scrollTimeout st) (clampScrollTop s)
        (timers st) (nextHandle st) in
    if looseEq s (scrollTop t) then st'
    else helper st' (duration t - delay) (scrollTop t).

(** The event loop runs the callback of timer [h], if it is pending. *)
Definition fire (st : State) (h : positive) (now : Z) : State :=
  match list_find (fun t => handle t = h) (timers st) with
  | None => st
  | Some (_, t) =>
      callback
        (update st (editorScrollDelay st) (scrollTimeout st)
           (editorScrollTop st) (clearTimeout h (timers st))
           (nextHandle st))
        t now
  end.

(** The pixel offset a reveal request aims at:
    [screenRow * lineHeight - offsetHeight / 2]. *)
Definition targetOf (st : State) (row : Z) : number :=
  sub (mul (ofZ (screenRowOf st row)) (lineHeightInPixels st))
      (div (offsetHeight st) (ofZ 2)).

Definition scrollToBufferPosition (st : State) (row now : Z) : State :=
  if negb (editorBound st) then st
  else if row <? 0 then st
  else
    let pending :=
      match scrollTimeout st with
      | Some h => clearTimeout h (timers st)
      | None => timers st
      end in
    let target := targetOf st row in
    helper
      (update st (now + 500) (scrollTimeout st) (editorScrollTop st)
         pending (nextHandle st))
      scrollDuration target.

(** What happens to a session: reveal requests and timer expiries,
    each with the clock reading at that moment. *)
Inductive Event : Type :=
| reveal (row now : Z)
| expire (h : positive) (now : Z).

Definition step (st : State) (e : Event) : State :=
  match e with
  | reveal row now => scrollToBufferPosition st row now
  | expire h now => fire st h now
  end.

Definition run (st : State) (events : list Event) : State :=
  foldl step st events.

(** One turn of the event loop with no new request: the oldest
    pending timer expires. *)
Definition tick (st : State) (now : Z) : State :=
  match timers st with
  | [] => st
  | t :: _ => fire st (handle t) now
  end.

Definition ticks (st : State) (clock : list Z) : State :=
  foldl tick st clock.

(** A fresh session, constructed at clock reading [now]: no timer was
    ever set. *)
Definition fresh (now : Z) (bound : bool) (rows : Z -> Z)
  (lineHeight height top : number) : State :=
  {| editorBound := bound;
     screenRowOf := rows;
     lineHeightInPixels := lineHeight;
     offsetHeight := height;
     editorScrollDelay := now;
     scrollTimeout := None;
     editorScrollTop := top;
     timers := [];
     nextHandle := 1%positive |}.

(** The state the callback of the only pending timer starts from:
    that timer is gone. *)
Definition expired (st : State) : State :=
  update st (editorScrollDelay st) (scrollTimeout st) (editorScrollTop st)
    [] (nextHandle st).

(** At most one timer is pending, and it is the one the session
    remembers in [scrollTimeout]. *)
Definition single (st : State) : Prop :=
  timers st = []
  \/ exists t, timers st = [t] /\ scrollTimeout st = Some (handle t).

End Animation.

End ScrollAnimation.

(** ** Sample sessions *)

Module Samples.
Import Js Preview.

Definition editorOn (ls : TextBuffer.lines) (first last : Z) : TextEditor :=
  {| getPath := "/home/user/notes.md";
     buffer_lines := ls;
     getLineCount := Z.of_nat (length ls);
     getFirstVisibleScreenRow := first;
     getLastVisibleScreenRow := last;
     getLastScreenRow := Z.of_nat (length ls) - 1;
     getLastBufferRow := Z.of_nat (length ls) - 1;
     bufferRowForScreenRow := fun row => row |}.

Definition viewOf (ed : TextEditor) : View :=
  {| editor := Some ed;
     scrollSync := true;
     imageFolderPath := "/assets";
     isPreviewInPresentationMode := false;
     JSAndCssFiles := ["style.css"; "chart.js"];
     editorScrollDelay := 500;
     zoomLevel := Number (Fin 1) |}.

(** Fifty rows, rows 0 to 20 in view. *)
Definition longDocument : TextBuffer.lines := replicate 50 "text".
Definition topOfLongDocument : View := viewOf (editorOn longDocument 0 20).

(** A viewport that shows the single row 5. *)
Definition singleRowView : View := viewOf (editorOn longDocument 5 5).

(** A document in which an upload hint, inserted on row 20, now stands
    on rows 17 and 21. *)
Definition hint : string := "![Uploading p.png (k3j9x2m1q)]()".

Definition shiftedDocument : TextBuffer.lines :=
  replicate 17 "text" ++ ["see " +:+ hint] ++ replicate 3 "text"
    ++ [hint +:+ " again"] ++ replicate 28 "text".

Definition shiftedView : View := viewOf (editorOn shiftedDocument 0 20).

(** A three-row document with the hint moved from row 0 to row 1. *)
Definition shortView : View :=
  viewOf (editorOn ["intro"; hint; "outro"] 0 2).

(** A task list. *)
Definition taskView : View :=
  viewOf (editorOn ["# Tasks"; ""; "- [x] done"; "- [ ] todo"] 0 3).

(** The last path segment, standing in for [path.basename] on a path
    that does not end in a slash. *)
Definition lastSegment (p : string) : string :=
  match searchLast "/" p with
  | Some k => String.substring (S k) (String.length p - S k) p
  | None => p
  end.

Definition joinPath (a b : string) : string := a +:+ "/" +:+ b.

(** A session at rest, with exact pixel arithmetic: rows 20 pixels
    high, a preview 400 pixels high, the editor scrolled to 130. *)
Definition atRest : @ScrollAnimation.State ScrollAnimation.exactPixels :=
  @ScrollAnimation.fresh ScrollAnimation.exactPixels
    0 true (fun row => row) 20%Q 400%Q 130%Q.

Definition thirteenTicks : list Z :=
  [1010; 1020; 1030; 1040; 1050; 1060; 1070; 1080; 1090; 1100; 1110; 1120;
   1130].

(** Editor binds of two sessions on two documents. *)
Definition bindRequests : list (string * string) :=
  [("/home/user/notes.md", "/home/user");
   ("/home/user/todo.md", "/home/user");
   ("/home/user/notes.md", "/home/user");
   ("/home/user/notes.md", "")].

End Samples.

(** ** More of the session: events, paths and the preview file *)

Module Session.
Import Js Preview.

(** Does the text hold a [$], the character that [String.prototype.replace]
    treats specially in a replacement? *)
Fixpoint hasDollar (s : string) : bool :=
  match s with
  | EmptyString => false
  | String c s' => Ascii.eqb c "$" || hasDollar s'
  end.

(** The scroll handler of [initEditorEvents]; [now] is [Date.now()]. *)
Definition onDidChangeScrollTop (v : View) (now : Z) : list Effect :=
  if negb (scrollSync v) then []
  else if now <? editorScrollDelay v then []
  else syncPreview v.

(** [webviewStopLoading]: the preview finished loading its page. *)
Definition webviewStopLoading (equal : list string -> list string -> bool)
  (v : View) (parsed : Settled ParseResult) : View * list Effect :=
  if negb (isPreviewInPresentationMode v)
  then renderMarkdown equal v parsed
  else (v, []).

(** A project directory of the workspace, as [atom.project.getDirectories()]
    lists it. *)
Record Directory : Type := {
  contains : string -> bool;
  directoryPath : string;
}.

(** The [for] loop of [getProjectDirectoryPath]. *)
Fixpoint firstContaining (projectDirectories : list Directory)
  (editorPath : string) : string :=
  match projectDirectories with
  | [] => ""
  | projectDirectory :: rest =>
      if contains projectDirectory editorPath
      then directoryPath projectDirectory
      else firstContaining rest editorPath
  end.

Definition getProjectDirectoryPath (v : View)
  (projectDirectories : list Directory) : string :=
  match editor v with
  | None => ""
  | Some ed => firstContaining projectDirectories (getPath ed)
  end.

End Session.

(** ** The process-wide table of preview files *)

Module HtmlFiles.

(** What [HTML_FILES_MAP[key]] yields: a stored file path, or a member of
    [Object.prototype] when the key names one. *)
Inductive Slot : Type :=
| fileSlot (htmlFilePath : string)
| memberSlot (name : string).

(** The table and the number of [tempOpen] calls made so far. *)
Record Files : Type := {
  HTML_FILES_MAP : gmap string string;
  opened : nat;
}.

Definition start : Files := {| HTML_FILES_MAP := ∅; opened := 0 |}.

Definition hasProperty (m : gmap string string) (key : string) : bool :=
  bool_decide (is_Some (m !! key))
  || bool_decide (key ∈ EngineCache.objectPrototypeKeys).

Definition getProperty (m : gmap string string) (key : string) : Slot :=
  match m !! key with
  | Some file => fileSlot file
  | None => memberSlot key
  end.

Section Load.

(** [tempOpen n] is the path of the file that the [n]-th call of
    [mume.utility.tempOpen] creates. *)
Variable tempOpen : nat -> string.

(** The "create temp html file for preview" step of [loadPreview]. *)
Definition htmlFileFor (f : Files) (editorFilePath : string) : Slot * Files :=
  if hasProperty (HTML_FILES_MAP f) editorFilePath then
    (getProperty (HTML_FILES_MAP f) editorFilePath, f)
  else
    let htmlFilePath := tempOpen (opened f) in
    (fileSlot htmlFilePath,
     {| HTML_FILES_MAP := <[editorFilePath := htmlFilePath]> (HTML_FILES_MAP f);
        opened := S (opened f) |}).

(** A run of preview loads, from any session, for the given editor
    paths, one after the other (a load awaits [tempOpen] between the test
    and the store, so loads that overlap are not covered): the file each
    load uses, and the table at the end. *)
Fixpoint loads (f : Files) (editorFilePaths : list string) : list Slot * Files :=
  match editorFilePaths with
  | [] => ([], f)
  | editorFilePath :: rest =>
      let '(file, f') := htmlFileFor f editorFilePath in
      let '(files, f'') := loads f' rest in
      (file :: files, f'')
  end.

End Load.

End HtmlFiles.

(** ** The clock of a run of the scroll animation *)

Module AnimationClock.
Import ScrollAnimation.

Section Clock.
Context {P : Pixels}.

(** The clock reading at which an event is handled. *)
Definition eventTime (e : Event) : Z :=
  match e with
  | reveal _ now => now
  | expire _ now => now
  end.


End Clock.

End AnimationClock.

(** ** More sample data *)

Module Cases.
Import Js.

(** A workspace with two project directories; a directory contains the
    paths that begin with its own path. *)
Definition directoryAt (path : string) : Session.Directory :=
  {| Session.contains := fun file => startsWith (path +:+ "/") file;
     Session.directoryPath := path |}.

Definition workspace : list Session.Directory :=
  [directoryAt "/srv/site"; directoryAt "/home/user"; directoryAt "/home"].

(** Temporary files are numbered in the order they are created. *)
Definition numbered (n : nat) : string :=
  "/tmp/mpe_preview" +:+ String (Ascii.ascii_of_nat (48 + n)) ".html".

(** A comparison of two lists element by element. *)
Definition sameList (x y : list string) : bool := bool_decide (x = y).

Definition loadedPaths : list string :=
  ["/home/user/notes.md"; "/home/user/todo.md"; "/home/user/notes.md"].

End Cases.

(** * Properties *)

(** Boolean comparisons on [Z] in the context become propositions. *)
Ltac reflect_order :=
  repeat match goal with
  | H : (_ <? _) = true |- _ => apply Z.ltb_lt in H
  | H : (_ <? _) = false |- _ => apply Z.ltb_ge in H
  | H : (_ <=? _) = true |- _ => apply Z.leb_le in H
  | H : (_ <=? _) = false |- _ => apply Z.leb_gt in H
  | H : (_ =? _) = true |- _ => apply Z.eqb_eq in H
  | H : (_ =? _) = false |- _ => apply Z.eqb_neq in H
  end.

Ltac order_case b :=
  let E := fresh "E" in
  destruct b eqn:E; reflect_order; try lia.

(** ** Strings *)

Section StringFacts.
Import Js.

Lemma append_cons (c : ascii) (s t : string) :
  String c s +:+ t = String c (s +:+ t).
Proof. reflexivity. Qed.

Lemma append_empty_l (t : string) : "" +:+ t = t.
Proof. reflexivity. Qed.

Lemma append_empty_r (s : string) : s +:+ "" = s.
Proof.
  induction s as [|c s IH]; [done|]. by rewrite append_cons, IH.
Qed.

Lemma append_assoc (a b c : string) : (a +:+ b) +:+ c = a +:+ b +:+ c.
Proof.
  induction a as [|x a IH]; [done|]. by rewrite !append_cons, IH.
Qed.

Lemma length_append (a b : string) :
  String.length (a +:+ b) = (String.length a + String.length b)%nat.
Proof.
  induction a as [|x a IH]; [done|]. rewrite append_cons. simpl.
  by rewrite IH.
Qed.

Lemma substring_none (n : nat) (s : string) : String.substring n 0 s = "".
Proof.
  revert n; induction s as [|c s IH]; intros [|n]; simpl; done.
Qed.

Lemma substring_whole (s : string) : String.substring 0 (String.length s) s = s.
Proof. induction s as [|c s IH]; simpl; [done | by rewrite IH]. Qed.

Lemma substring_split (s : string) (k : nat) :
  (k <= String.length s)%nat ->
  String.substring 0 k s +:+ String.substring k (String.length s - k) s = s.
Proof.
  revert k; induction s as [|c s IH]; intros [|k] Hk; simpl in *; try lia.
  - done.
  - by rewrite substring_whole.
  - rewrite append_cons, IH; [done | lia].
Qed.

Lemma length_substring_prefix (s : string) (k : nat) :
  (k <= String.length s)%nat -> String.length (String.substring 0 k s) = k.
Proof.
  revert k; induction s as [|c s IH]; intros [|k] Hk; simpl in *; try lia.
  rewrite IH; lia.
Qed.

Lemma searchLast_bound (pat s : string) (k : nat) :
  searchLast pat s = Some k -> (k <= String.length s)%nat.
Proof.
  revert k; induction s as [|c s IH]; intros k; simpl.
  - destruct (startsWith pat ""); intros [= <-]; lia.
  - destruct (searchLast pat s) as [j|].
    + intros [= <-]. specialize (IH j eq_refl). lia.
    + destruct (startsWith pat (String c s)); intros [= <-]; lia.
Qed.

(** The text from the last occurrence on begins with the pattern. *)
Lemma searchLast_found (pat s : string) (k : nat) :
  searchLast pat s = Some k ->
  startsWith pat (String.substring k (String.length s - k) s) = true.
Proof.
  revert k; induction s as [|c s IH]; intros k; simpl.
  - destruct (startsWith pat "") eqn:E; intros [= <-]; simpl.
    by destruct pat.
  - destruct (searchLast pat s) as [j|].
    + intros [= <-]. by apply IH.
    + destruct (startsWith pat (String c s)) eqn:E; intros [= <-].
      simpl. by rewrite substring_whole.
Qed.

Lemma slice_prefix (s : string) (k : nat) :
  (k <= String.length s)%nat ->
  slice s 0 (Z.of_nat k) = String.substring 0 k s.
Proof.
  intros Hk. unfold slice, sliceBound.
  replace (0 <? 0) with false by done.
  destruct (Z.of_nat k <? 0) eqn:E; [lia|].
  rewrite Z.min_l by lia. rewrite Z.min_l by lia.
  rewrite Z.sub_0_r, Z.max_l by lia.
  by rewrite Nat2Z.id.
Qed.

Lemma slice_suffix (s : string) (k : nat) :
  (k <= String.length s)%nat ->
  slice s (Z.of_nat k) (Z.of_nat (String.length s))
  = String.substring k (String.length s - k) s.
Proof.
  intros Hk. unfold slice, sliceBound.
  destruct (Z.of_nat k <? 0) eqn:E; [lia|].
  destruct (Z.of_nat (String.length s) <? 0) eqn:E'; [lia|].
  rewrite Z.min_l by lia. rewrite Z.min_l by lia.
  rewrite Z.max_l by lia.
  rewrite Nat2Z.id. f_equal. lia.
Qed.

End StringFacts.

(** ** The text buffer *)

Section BufferFacts.
Import TextBuffer.

Lemma splitLines_single (s : string) :
  hasLineFeed s = false -> splitLines s = [s].
Proof.
  induction s as [|c s IH]; simpl; [done|].
  destruct (Ascii.eqb c LF); simpl; [done|].
  intros H. by rewrite (IH H).
Qed.

Lemma splitLines_terminated (s : string) :
  hasLineFeed s = false ->
  splitLines (s +:+ String LF EmptyString) = [s; EmptyString].
Proof.
  induction s as [|c s IH]; [done|].
  rewrite append_cons. simpl.
  destruct (Ascii.eqb c LF); simpl; [done|].
  intros H. by rewrite (IH H).
Qed.

Lemma lineAt_Some (ls : lines) (row : Z) (text : string) :
  lineAt ls row = Some text -> 0 <= row /\ ls !! Z.to_nat row = Some text.
Proof.
  unfold lineAt. order_case (row <? 0); [done|].
  intros H. split; [lia | done].
Qed.

Lemma lineAt_nat (ls : lines) (row : nat) :
  lineAt ls (Z.of_nat row) = ls !! row.
Proof.
  unfold lineAt. order_case (Z.of_nat row <? 0).
  by rewrite Nat2Z.id.
Qed.

Lemma clipPosition_inside (ls : lines) (row col : nat) (text : string) :
  ls !! row = Some text -> (col <= String.length text)%nat ->
  clipPosition ls (Z.of_nat row, Z.of_nat col) = (row, col).
Proof.
  intros Hrow Hcol. unfold clipPosition, lastRow, rowText.
  pose proof (lookup_lt_Some _ _ _ Hrow) as Hlt.
  order_case (Z.of_nat row <? 0).
  order_case (Z.of_nat (pred (length ls)) <? Z.of_nat row).
  order_case (Z.of_nat col <? 0).
  rewrite !Nat2Z.id, Hrow. simpl. f_equal. lia.
Qed.

Lemma clipPosition_row_start (ls : lines) (row : nat) (text : string) :
  ls !! row = Some text -> clipPosition ls (Z.of_nat row, 0) = (row, 0%nat).
Proof.
  intros Hrow. apply (clipPosition_inside ls row 0 text Hrow). lia.
Qed.

Lemma clipPosition_beyond (ls : lines) (row col : Z) :
  Z.of_nat (lastRow ls) < row ->
  clipPosition ls (row, col)
  = (lastRow ls, String.length (rowText ls (lastRow ls))).
Proof.
  intros H. unfold clipPosition.
  order_case (row <? 0).
  order_case (Z.of_nat (lastRow ls) <? row). done.
Qed.

(** Replacing the whole text of one row. *)
Lemma setTextInRange_row (ls : lines) (row : nat) (text new : string) :
  ls !! row = Some text -> hasLineFeed new = false ->
  setTextInRange ls (Z.of_nat row, 0)
    (Z.of_nat row, Z.of_nat (String.length text)) new
  = <[row := new]> ls.
Proof.
  intros Hrow Hnew. unfold setTextInRange.
  rewrite (clipPosition_row_start ls row text Hrow).
  rewrite (clipPosition_inside ls row _ text Hrow) by lia.
  unfold rowText. rewrite Hrow. simpl default.
  rewrite Nat.sub_diag, !substring_none, append_empty_l.
  rewrite (splitLines_single _ Hnew). simpl appendToLast.
  rewrite append_empty_r.
  symmetry. apply insert_take_drop. by eapply lookup_lt_Some.
Qed.

(** Replacing one row together with its line ending by a text that ends
    in a line feed. On the last row there is no line ending to replace,
    so an empty row is left behind the rewritten one. *)
Lemma setTextInRange_row_and_ending (ls : lines) (row : nat) (text new : string) :
  ls !! row = Some text -> hasLineFeed new = false ->
  setTextInRange ls (Z.of_nat row, 0) (Z.of_nat row + 1, 0)
    (new +:+ String LF EmptyString)
  = <[row := new]> ls ++ trailingRow ls row.
Proof.
  intros Hrow Hnew. unfold setTextInRange, trailingRow.
  pose proof (lookup_lt_Some _ _ _ Hrow) as Hlt.
  rewrite (clipPosition_row_start ls row text Hrow).
  rewrite substring_none, append_empty_l, (splitLines_terminated _ Hnew).
  rewrite (insert_take_drop ls row new Hlt).
  destruct (decide (S row = length ls)) as [Hlast|Hmore].
  - rewrite clipPosition_beyond by (unfold lastRow; lia).
    rewrite Nat.sub_diag, substring_none. simpl appendToLast.
    rewrite (drop_ge ls (S (lastRow ls))) by (unfold lastRow; lia).
    rewrite (drop_ge ls (S row)) by lia.
    by rewrite <- app_assoc.
  - destruct (ls !! S row) as [next|] eqn:Hnext;
      [|apply lookup_ge_None in Hnext; lia].
    replace (Z.of_nat row + 1) with (Z.of_nat (S row)) by lia.
    rewrite (clipPosition_row_start ls (S row) next Hnext).
    unfold rowText. rewrite Hnext. simpl default.
    rewrite Nat.sub_0_r, substring_whole. simpl appendToLast.
    rewrite app_nil_r. f_equal. simpl. f_equal.
    by rewrite (drop_S ls next (S row) Hnext).
Qed.

End BufferFacts.

(** ** Pasting an image over an existing file *)

Section PasteFacts.
Import Js Preview.

Lemma searchLast_is_last (pat s : string) (k : nat) :
  searchLast pat s = Some k ->
  searchLast pat (String.substring k (String.length s - k) s) = Some 0%nat.
Proof.
  revert k; induction s as [|c s IH]; intros k Hk; simpl in Hk.
  - destruct (startsWith pat "") eqn:E; inversion Hk; subst k.
    simpl. by rewrite E.
  - destruct (searchLast pat s) as [j|] eqn:Es.
    + inversion Hk; subst k. by apply IH.
    + destruct (startsWith pat (String c s)) eqn:E; inversion Hk; subst k.
      rewrite Nat.sub_0_r, substring_whole. simpl. by rewrite Es, E.
Qed.

Lemma lastIndexOf_positive (s pat : string) :
  0 < lastIndexOf s pat ->
  searchLast pat s = Some (Z.to_nat (lastIndexOf s pat)).
Proof.
  unfold lastIndexOf. destruct (searchLast pat s) as [k|]; simpl; [|lia].
  intros _. by rewrite Nat2Z.id.
Qed.

End PasteFacts.

(** C8. When the destination file already exists and the last dot of the
    file name is at a positive offset, [pasteImageFile] splits the name at
    that dot into a stem and an extension (which begins with the dot and
    holds no other dot), copies the image to stem + "_" + random suffix +
    extension, a name that differs from the original and still ends in
    the extension, and inserts an image reference whose description is
    the stem. *)
Theorem paste_collision_keeps_extension
  (basename dirname : string -> string) (resolve : string -> string -> string)
  (v : Preview.View) (ed : Preview.TextEditor)
  (projectDirectoryPath imageFilePath random : string) :
  Preview.editor v = Some ed ->
  0 < Js.lastIndexOf (basename imageFilePath) "." ->
  let name := basename imageFilePath in
  let k := Z.to_nat (Js.lastIndexOf name ".") in
  let stem := String.substring 0 k name in
  let extension := String.substring k (String.length name - k) name in
  let produced := stem +:+ "_" +:+ random +:+ extension in
  name = stem +:+ extension
  /\ Js.startsWith "." extension = true
  /\ Js.searchLast "." extension = Some 0%nat
  /\ Preview.renameOnCollision name random = (stem, produced)
  /\ produced = (stem +:+ "_" +:+ random) +:+ extension
  /\ produced <> name
  /\ exists directory,
       Preview.pasteImageFile basename dirname resolve v projectDirectoryPath
         imageFilePath random Preview.statFound
       = [Preview.copyFile imageFilePath (resolve directory produced);
          Preview.addInfo ("Image " +:+ produced
                             +:+ " has been copied to folder " +:+ directory);
          Preview.insertText
            (Preview.imageMarkdown stem
               (Preview.pastedUrl (Preview.imageFolderPath v) produced))].
Proof.
  intros Hed Hpos name k stem extension produced.
  pose proof (lastIndexOf_positive _ _ Hpos) as Hk. fold name k in Hk.
  pose proof (searchLast_bound _ _ _ Hk) as Hle.
  assert (Hrename : Preview.renameOnCollision name random = (stem, produced)).
  { unfold Preview.renameOnCollision.
    replace (0 <? Js.lastIndexOf name ".") with true
      by (symmetry; apply Z.ltb_lt; exact Hpos).
    replace (Js.lastIndexOf name ".") with (Z.of_nat k)
      by (unfold k, name; apply Z2Nat.id; lia).
    by rewrite slice_prefix, slice_suffix by done. }
  repeat split.
  - symmetry. by apply substring_split.
  - by apply searchLast_found.
  - by apply searchLast_is_last.
  - exact Hrename.
  - by rewrite !append_assoc.
  - intros Heq. apply (f_equal String.length) in Heq.
    pose proof (f_equal String.length (substring_split name k Hle)) as Hlen.
    fold stem extension in Hlen. unfold produced in Heq.
    rewrite !length_append in Heq, Hlen. simpl in Heq.
    rewrite append_empty_l, length_append in Heq. lia.
  - eexists. unfold Preview.pasteImageFile. rewrite Hed.
    fold name. rewrite Hrename. reflexivity.
Qed.

(** ** The task list checkbox *)

Section CheckboxFacts.
Import Js Preview TextBuffer.

Lemma toggle_unchecked : toggleTaskLine "- [ ] todo" = "- [x] todo".
Proof. reflexivity. Qed.

Lemma toggle_checked : toggleTaskLine "- [x] todo" = "- [ ] todo".
Proof. reflexivity. Qed.

(** What one click does to the document. *)
Lemma clickTaskListCheckbox_lines (v : View) (ed : TextEditor)
  (row : nat) (line : string) :
  editor v = Some ed ->
  buffer_lines ed !! row = Some line ->
  hasLineFeed (toggleTaskLine line) = false ->
  clickTaskListCheckbox v (Z.of_nat row)
  = Ok (setLines v ed
          (<[row := toggleTaskLine line]> (buffer_lines ed)
             ++ trailingRow (buffer_lines ed) row)).
Proof.
  intros Hed Hrow Hlf. unfold clickTaskListCheckbox.
  rewrite Hed, lineAt_nat, Hrow. do 2 f_equal.
  by apply setTextInRange_row_and_ending with (text := line).
Qed.

Lemma trailingRow_settled (ls : lines) (row : nat) (new : string) :
  (row < length ls)%nat ->
  trailingRow (<[row := new]> ls ++ trailingRow ls row) row = [].
Proof.
  intros Hlt. unfold trailingRow at 1.
  rewrite length_app, length_insert. unfold trailingRow.
  destruct (decide (S row = length ls)); simpl; case_decide; (done || lia).
Qed.

End CheckboxFacts.

(** C6. A click on the checkbox of a row that reads [- [ ] todo] rewrites
    the row to [- [x] todo], a second click rewrites it back, and after
    either click every other row of the document reads as before. (The
    document as a whole is the original one with the clicked row
    rewritten, followed by one empty row when the clicked row was the
    last.) *)
Theorem task_checkbox_toggle
  (v : Preview.View) (ed : Preview.TextEditor) (dataLine : Z) :
  Preview.editor v = Some ed ->
  TextBuffer.lineAt (Preview.buffer_lines ed) dataLine = Some "- [ ] todo" ->
  let ls := Preview.buffer_lines ed in
  exists ls1 ls2,
    Preview.clickTaskListCheckbox v dataLine = Js.Ok (Preview.setLines v ed ls1)
    /\ Preview.clickTaskListCheckbox (Preview.setLines v ed ls1) dataLine
       = Js.Ok (Preview.setLines v ed ls2)
    /\ TextBuffer.lineAt ls1 dataLine = Some "- [x] todo"
    /\ TextBuffer.lineAt ls2 dataLine = Some "- [ ] todo"
    /\ (forall (j : Z) (text : string),
          j <> dataLine -> TextBuffer.lineAt ls j = Some text ->
          TextBuffer.lineAt ls1 j = Some text
          /\ TextBuffer.lineAt ls2 j = Some text)
    /\ ls1 = <[Z.to_nat dataLine := "- [x] todo"]> ls
               ++ TextBuffer.trailingRow ls (Z.to_nat dataLine)
    /\ ls2 = ls ++ TextBuffer.trailingRow ls (Z.to_nat dataLine).
Proof.
  intros Hed Hline ls.
  destruct (lineAt_Some _ _ _ Hline) as [Hpos Hrow].
  set (row := Z.to_nat dataLine) in *.
  assert (HdataLine : dataLine = Z.of_nat row) by (unfold row; lia).
  pose proof (lookup_lt_Some _ _ _ Hrow) as Hlt. fold ls in Hrow, Hlt.
  set (tail := TextBuffer.trailingRow ls row).
  set (ls1 := <[row := "- [x] todo"]> ls ++ tail).
  assert (Hrow1 : ls1 !! row = Some "- [x] todo").
  { unfold ls1. rewrite lookup_app_l by (by rewrite length_insert).
    by apply list_lookup_insert_eq. }
  assert (Hls2 : <[row := "- [ ] todo"]> ls1
                   ++ TextBuffer.trailingRow ls1 row = ls ++ tail).
  { unfold ls1, tail. rewrite trailingRow_settled by done.
    rewrite app_nil_r, insert_app_l by (by rewrite length_insert).
    by rewrite list_insert_insert_eq, list_insert_id. }
  exists ls1, (ls ++ tail). rewrite HdataLine. split_and!.
  - by rewrite (clickTaskListCheckbox_lines v ed row "- [ ] todo").
  - pose proof (clickTaskListCheckbox_lines (Preview.setLines v ed ls1)
                  (Preview.withLines ed ls1) row "- [x] todo"
                  eq_refl Hrow1 eq_refl) as H.
    simpl Preview.buffer_lines in H. rewrite toggle_checked, Hls2 in H.
    exact H.
  - by rewrite lineAt_nat.
  - rewrite lineAt_nat. by rewrite lookup_app_l.
  - intros j text Hne Hj.
    destruct (lineAt_Some _ _ _ Hj) as [Hj0 Hjrow].
    pose proof (lookup_lt_Some _ _ _ Hjrow) as Hjlt.
    replace j with (Z.of_nat (Z.to_nat j)) by lia. rewrite !lineAt_nat.
    split.
    + unfold ls1. rewrite lookup_app_l by (by rewrite length_insert).
      rewrite list_lookup_insert_ne by lia. done.
    + by rewrite lookup_app_l.
  - done.
  - done.
Qed.

(** ** The upload hint resolver *)

Section HintFacts.
Import Js Preview.

Variables (v : View) (ed : TextEditor) (hint withStr : string).
Hypothesis bound : editor v = Some ed.

Lemma replaceHint_lacks (row : Z) :
  hintNotOnRow (buffer_lines ed) hint row = true ->
  replaceHint v row hint withStr = Ok (false, v).
Proof.
  unfold hintNotOnRow, replaceHint. rewrite bound.
  destruct (TextBuffer.lineAt (buffer_lines ed) row); [|done].
  by destruct (0 <=? indexOf s hint).
Qed.

Lemma replaceHint_holds (row : Z) (textLine : string) :
  TextBuffer.lineAt (buffer_lines ed) row = Some textLine ->
  0 <= indexOf textLine hint ->
  replaceHint v row hint withStr
  = Ok (true,
        setLines v ed (hintReplaced (buffer_lines ed) row textLine hint withStr)).
Proof.
  intros Hrow Hfound. unfold replaceHint. rewrite bound, Hrow.
  by replace (0 <=? indexOf textLine hint) with true
    by (symmetry; by apply Z.leb_le).
Qed.

(** A scan over rows that all lack the hint changes nothing. *)
Lemma scanRows_exhausted (n : nat) (i : Z) :
  (forall j, i <= j < i + Z.of_nat n ->
             hintNotOnRow (buffer_lines ed) hint j = true) ->
  scanRows n i v hint withStr = Ok v.
Proof.
  revert i; induction n as [|n IH]; intros i Hlack; [done|].
  simpl. rewrite replaceHint_lacks by (apply Hlack; lia).
  apply IH. intros j Hj. apply Hlack. lia.
Qed.

(** The scan stops at the lowest row that holds the hint. *)
Lemma scanRows_first (n : nat) (i j : Z) (v' : View) :
  i <= j < i + Z.of_nat n ->
  (forall k, i <= k < j -> hintNotOnRow (buffer_lines ed) hint k = true) ->
  replaceHint v j hint withStr = Ok (true, v') ->
  scanRows n i v hint withStr = Ok v'.
Proof.
  revert i; induction n as [|n IH]; intros i Hj Hlack Hhit; [lia|].
  simpl. destruct (decide (i = j)) as [->|Hne].
  - by rewrite Hhit.
  - rewrite replaceHint_lacks by (apply Hlack; lia).
    apply IH; [lia | | done]. intros k Hk. apply Hlack. lia.
Qed.

End HintFacts.

(** C4 (as amended). When an upload resolves, [setUploadedImageURL] first
    tries the recorded insertion row. If that row lacks the hint, it scans
    the rows from [bufferRow - 20] to [bufferRow + 20] in ascending order
    and replaces the hint on the lowest row that holds it, provided the
    rows scanned before it exist. When every row of the window exists and
    lacks the hint, the document and the session are unchanged and
    nothing is raised. *)
Theorem upload_hint_resolution
  (v : Preview.View) (ed : Preview.TextEditor)
  (imageFileName url hint : string) (bufferRow : Z) :
  Preview.editor v = Some ed ->
  let ls := Preview.buffer_lines ed in
  let withStr :=
    Preview.imageMarkdown (Preview.descriptionOf imageFileName) url in
  let resolved := Preview.setUploadedImageURL v imageFileName url hint bufferRow in
  let replacedOn (row : Z) (textLine : string) :=
    Preview.setLines v ed (Preview.hintReplaced ls row textLine hint withStr) in
  (forall textLine,
      TextBuffer.lineAt ls bufferRow = Some textLine ->
      0 <= Js.indexOf textLine hint ->
      resolved = Js.Ok (replacedOn bufferRow textLine))
  /\ (forall row textLine,
        Preview.hintNotOnRow ls hint bufferRow = true ->
        bufferRow - 20 <= row <= bufferRow + 20 ->
        (forall k, bufferRow - 20 <= k < row ->
                   Preview.hintNotOnRow ls hint k = true) ->
        TextBuffer.lineAt ls row = Some textLine ->
        0 <= Js.indexOf textLine hint ->
        resolved = Js.Ok (replacedOn row textLine))
  /\ ((forall k, bufferRow - 20 <= k <= bufferRow + 20 ->
                 Preview.hintNotOnRow ls hint k = true) ->
      resolved = Js.Ok v
      /\ Preview.uploadImageFile_settled v imageFileName hint bufferRow
           (Preview.Resolved url) = (v, [])).
Proof.
  intros Hed ls withStr resolved replacedOn.
  assert (Hrows : Z.to_nat (bufferRow + 20 - (bufferRow - 20) + 1) = 41%nat)
    by lia.
  split_and!.
  - intros textLine Hrow Hfound. unfold resolved, Preview.setUploadedImageURL.
    fold withStr.
    by rewrite (replaceHint_holds v ed hint withStr Hed bufferRow textLine).
  - intros row textLine Hlacks Hwindow Hbefore Hrow Hfound.
    unfold resolved, Preview.setUploadedImageURL. fold withStr.
    rewrite (replaceHint_lacks v ed hint withStr Hed bufferRow Hlacks), Hrows.
    apply (scanRows_first v ed hint withStr Hed 41 (bufferRow - 20) row);
      [lia | done |].
    by apply replaceHint_holds.
  - intros Hnone.
    assert (Hresolved : resolved = Js.Ok v).
    { unfold resolved, Preview.setUploadedImageURL. fold withStr.
      rewrite (replaceHint_lacks v ed hint withStr Hed bufferRow)
        by (apply Hnone; lia).
      rewrite Hrows. apply (scanRows_exhausted v ed hint withStr Hed).
      intros j Hj. apply Hnone. lia. }
    split; [done|]. unfold Preview.uploadImageFile_settled.
    fold resolved. by rewrite Hresolved.
Qed.

(** C4, the claim as written fails. With the hint on rows 17 and 21 and
    the insertion row 20, a scan outward from row 20 would reach row 21
    first; the code rewrites row 17 and leaves row 21 alone. And in a
    three-row document where the hint moved from row 0 to row 1, the scan
    starts at row -20, which does not exist: the call raises, the hint
    stays in the document and an error notification is shown. *)
Lemma upload_hint_scan_is_ascending :
  (exists ls',
      Preview.setUploadedImageURL Samples.shiftedView "p.png"
        "https://i.example/p.png" Samples.hint 20
      = Js.Ok (Preview.setLines Samples.shiftedView
                 (Samples.editorOn Samples.shiftedDocument 0 20) ls')
      /\ TextBuffer.lineAt ls' 17 = Some "see ![p](https://i.example/p.png)"
      /\ TextBuffer.lineAt ls' 21 = Some (Samples.hint +:+ " again"))
  /\ Preview.setUploadedImageURL Samples.shortView "p.png"
       "https://i.example/p.png" Samples.hint 0
     = Js.Throw Js.TypeError
  /\ Preview.uploadImageFile_settled Samples.shortView "p.png" Samples.hint 0
       (Preview.Resolved "https://i.example/p.png")
     = (Samples.shortView, [Preview.addError Js.TypeError]).
Proof.
  split_and!.
  - eexists. split_and!; [vm_compute; reflexivity | reflexivity | reflexivity].
  - reflexivity.
  - reflexivity.
Qed.

(** ** Document to preview: the cursor handler *)

Section RatioFacts.
Import Js Preview.

Lemma divZ_nonzero (a b : Z) :
  b <> 0 -> divZ a b = Fin (inject_Z a / inject_Z b).
Proof. intros Hb. unfold divZ. by order_case (b =? 0). Qed.

Lemma divZ_zero (a : Z) :
  divZ a 0 = NaN \/ exists negative, divZ a 0 = Infinity negative.
Proof. unfold divZ. simpl. destruct (a =? 0); eauto. Qed.

(** A quotient of integers with a positive divisor lies in [0,1]
    exactly when the dividend lies between 0 and the divisor. *)
Lemma quotient_in_unit_interval (a b : Z) :
  0 < b ->
  (0 <= inject_Z a / inject_Z b /\ inject_Z a / inject_Z b <= 1)%Q
  <-> 0 <= a <= b.
Proof.
  intros Hb. destruct b as [|p|p]; try lia.
  unfold Qle, Qdiv, Qmult, Qinv, inject_Z. simpl. lia.
Qed.

End RatioFacts.

(** C1 (as amended). A cursor move handled while scroll sync is on and
    the suppression deadline has passed posts the buffer row together
    with the quotient (cursor row - first visible row) / (last visible
    row - first visible row), as it is: nothing clamps it. For a range
    with last > first the quotient lies in [0,1] exactly when the cursor
    row lies within the visible range. For a single visible row the
    division is by zero and yields NaN or an infinity, never 0. *)
Theorem cursor_topRatio_is_plain_quotient
  (v : Preview.View) (ed : Preview.TextEditor) (now : Z)
  (event : Preview.CursorEvent) :
  Preview.scrollSync v = true ->
  Preview.editorScrollDelay v <= now ->
  Preview.editor v = Some ed ->
  let row := Preview.newScreenPosition_row event in
  let first := Preview.getFirstVisibleScreenRow ed in
  let last := Preview.getLastVisibleScreenRow ed in
  let topRatio := Preview.topRatioOf row first last in
  Preview.onDidChangeCursorPosition v now event
  = Js.Ok [Preview.postMessage
             (Preview.changeTextEditorSelection
                (Preview.newBufferPosition_row event) topRatio)]
  /\ (first < last ->
      topRatio = Js.Fin (inject_Z (row - first) / inject_Z (last - first))
      /\ (Js.inUnitInterval topRatio <-> first <= row <= last))
  /\ (last = first ->
      (topRatio = Js.NaN \/ exists negative, topRatio = Js.Infinity negative)
      /\ ~ Js.isZero topRatio
      /\ ~ Js.inUnitInterval topRatio).
Proof.
  intros Hsync Hdelay Hed row first last topRatio. split_and!.
  - unfold Preview.onDidChangeCursorPosition. rewrite Hsync, Hed. simpl.
    by order_case (now <? Preview.editorScrollDelay v).
  - intros Hrange.
    assert (HtopRatio :
      topRatio = Js.Fin (inject_Z (row - first) / inject_Z (last - first)))
      by (apply divZ_nonzero; lia).
    split; [done|]. rewrite HtopRatio. simpl.
    rewrite quotient_in_unit_interval by lia. lia.
  - intros Hsingle. unfold topRatio, Preview.topRatioOf.
    rewrite Hsingle, Z.sub_diag.
    destruct (divZ_zero (row - first)) as [H | [negative H]];
      rewrite H; split_and!; eauto.
Qed.

(** C1, the claim as written fails. With rows 0 to 20 in view and the
    cursor on row 30 the posted ratio is 30/20, outside [0,1]; with the
    single row 5 in view and the cursor on it the posted ratio is NaN,
    not 0. *)
Lemma cursor_topRatio_is_not_clamped :
  (Preview.onDidChangeCursorPosition Samples.topOfLongDocument 1000
     {| Preview.newScreenPosition_row := 30;
        Preview.newBufferPosition_row := 30 |}
   = Js.Ok [Preview.postMessage
              (Preview.changeTextEditorSelection 30 (Js.Fin (30 # 20)))]
   /\ ~ Js.inUnitInterval (Js.Fin (30 # 20)))
  /\ (Preview.onDidChangeCursorPosition Samples.singleRowView 1000
        {| Preview.newScreenPosition_row := 5;
           Preview.newBufferPosition_row := 5 |}
      = Js.Ok [Preview.postMessage
                 (Preview.changeTextEditorSelection 5 Js.NaN)]
      /\ ~ Js.isZero Js.NaN).
Proof.
  split_and!; try reflexivity.
  - simpl. intros [_ H]. revert H. unfold Qle. simpl. lia.
  - simpl. tauto.
Qed.

(** ** Preview follows the editor: [syncPreview] *)

(** C7. With an editor bound, [syncPreview] posts row 0 with ratio 0 when
    the first visible screen row is 0 (whatever the last visible row is);
    otherwise the last buffer row with ratio 1 when the last visible
    screen row is the last screen row of the document; otherwise the
    buffer row of the screen row floor((first + last) / 2) with ratio
    1/2. *)
Theorem syncPreview_snap_policy (v : Preview.View) (ed : Preview.TextEditor) :
  Preview.editor v = Some ed ->
  let first := Preview.getFirstVisibleScreenRow ed in
  let last := Preview.getLastVisibleScreenRow ed in
  let posts line ratio :=
    Preview.syncPreview v
    = [Preview.postMessage (Preview.changeTextEditorSelection line ratio)] in
  (first = 0 -> posts 0 (Js.Fin 0))
  /\ (first <> 0 -> last = Preview.getLastScreenRow ed ->
      posts (Preview.getLastBufferRow ed) (Js.Fin 1))
  /\ (first <> 0 -> last <> Preview.getLastScreenRow ed ->
      exists mid,
        2 * mid <= first + last < 2 * mid + 2
        /\ posts (Preview.bufferRowForScreenRow ed mid) (Js.Fin (1 # 2))).
Proof.
  intros Hed first last posts. unfold posts, Preview.syncPreview.
  rewrite Hed. fold first last. split_and!.
  - intros ->. done.
  - intros Hfirst Hlast.
    order_case (first =? 0).
    by order_case (last =? Preview.getLastScreenRow ed).
  - intros Hfirst Hlast. exists ((last + first) / 2).
    split; [pose proof (Z.div_mod (last + first) 2);
            pose proof (Z.mod_pos_bound (last + first) 2); lia|].
    order_case (first =? 0).
    by order_case (last =? Preview.getLastScreenRow ed).
Qed.

(** ** The zoom level *)

(** C10. [setZoomLevel] stores its argument when it is truthy and 1
    otherwise; 0, null, undefined and NaN are falsy. The stored value is
    therefore always truthy, in particular never the number 0, and the
    zoom command of the preview carrying 0 stores 1. *)
Theorem setZoomLevel_never_zero (v : Preview.View) (z : Js.value) :
  Preview.zoomLevel (Preview.setZoomLevel v z)
  = (if Js.truthy z then z else Js.Number (Js.Fin 1))
  /\ Js.truthy (Js.Number (Js.Fin 0)) = false
  /\ Js.truthy Js.Null = false
  /\ Js.truthy Js.Undefined = false
  /\ Js.truthy (Js.Number Js.NaN) = false
  /\ Js.truthy (Preview.zoomLevel (Preview.setZoomLevel v z)) = true
  /\ (forall n, Preview.zoomLevel (Preview.setZoomLevel v z) = Js.Number n ->
                ~ Js.isZero n)
  /\ (forall sourceUri,
        Preview.zoomLevel
          (Preview.dispatch_setZoomLevel v [sourceUri; Js.Number (Js.Fin 0)])
        = Js.Number (Js.Fin 1)).
Proof.
  assert (Htruthy : Js.truthy (Preview.zoomLevel (Preview.setZoomLevel v z)) = true).
  { simpl. unfold Js.or. by destruct (Js.truthy z) eqn:E. }
  split_and!; try done.
  intros n Hn. rewrite Hn in Htruthy. destruct n as [| |q]; simpl; try tauto.
  intros Hq. simpl in Htruthy. apply Qeq_bool_iff in Hq.
  by rewrite Hq in Htruthy.
Qed.

(** ** The render decision *)

Section RenderFacts.
Import Js Preview.

Lemma isArrayEqual_members (x y : list string) :
  isArrayEqual x y = true
  <-> (forall a, In a x -> In a y) /\ (forall b, In b y -> In b x).
Proof.
  unfold isArrayEqual. rewrite andb_true_iff, !forallb_forall.
  assert (Hmem : forall (a : string) l,
             existsb (String.eqb a) l = true <-> In a l).
  { intros a l. rewrite existsb_exists. split.
    - intros (b & Hb & Heq). apply String.eqb_eq in Heq. by subst.
    - intros Ha. exists a. split; [done | apply String.eqb_refl]. }
  split; intros [H1 H2]; split; intros a Ha; apply Hmem; auto.
Qed.

Lemma isArrayEqual_permutation (x y : list string) :
  Permutation x y -> isArrayEqual x y = true.
Proof.
  intros Hperm. apply isArrayEqual_members. split; intros a Ha.
  - by apply (Permutation_in a Hperm).
  - by apply (Permutation_in a (Permutation_sym Hperm)).
Qed.

(** Whatever the comparison is: when it finds the lists equal and the
    front matter sets no presentation flag, the render is a patch. *)
Lemma renderMarkdown_patches (equal : list string -> list string -> bool)
  (v : View) (ed : TextEditor) (r : ParseResult) :
  editor v = Some ed ->
  isPreviewInPresentationMode v = false ->
  equal (parsed_JSAndCssFiles r) (JSAndCssFiles v) = true ->
  truthy (isPresentationMode (yamlConfig r)) = false ->
  renderMarkdown equal v (Resolved r)
  = (v, [postMessage startParsingMarkdown;
         postMessage
           (updateHTML (html r) (tocHTML r) (getLineCount ed) (getPath ed)
              (or (yaml_id (yamlConfig r)) (Str ""))
              (or (yaml_class (yamlConfig r)) (Str "")))]).
Proof.
  intros Hed Hmode Hequal Hflag.
  unfold renderMarkdown, renderMarkdown_then.
  by rewrite Hed, Hmode, Hequal, Hflag.
Qed.

(** And when it finds them different, the render stores the new list and
    reloads the preview. *)
Lemma renderMarkdown_reloads (equal : list string -> list string -> bool)
  (v : View) (ed : TextEditor) (r : ParseResult) :
  editor v = Some ed ->
  isPreviewInPresentationMode v = false ->
  equal (parsed_JSAndCssFiles r) (JSAndCssFiles v) = false ->
  renderMarkdown equal v (Resolved r)
  = (withJSAndCssFiles v (parsed_JSAndCssFiles r),
     [postMessage startParsingMarkdown; loadPreview]).
Proof.
  intros Hed Hmode Hequal.
  unfold renderMarkdown, renderMarkdown_then.
  by rewrite Hed, Hmode, Hequal.
Qed.

End RenderFacts.

(** C2. A render (editor bound, preview not in presentation mode, parse
    resolved) whose dependency list is a permutation of the stored one and
    whose front matter sets no presentation flag posts the parsing notice
    and an [updateHTML] patch, keeps the session as it is and does not
    reload the preview; the lists [a,b] and [b,a] compare as equal. *)
Theorem render_patches_on_permuted_dependencies
  (v : Preview.View) (ed : Preview.TextEditor) (r : Preview.ParseResult) :
  Preview.editor v = Some ed ->
  Preview.isPreviewInPresentationMode v = false ->
  Permutation (Preview.parsed_JSAndCssFiles r) (Preview.JSAndCssFiles v) ->
  Js.truthy (Preview.isPresentationMode (Preview.yamlConfig r)) = false ->
  let '(v', effects) :=
    Preview.renderMarkdown Preview.isArrayEqual v (Preview.Resolved r) in
  v' = v
  /\ effects
     = [Preview.postMessage Preview.startParsingMarkdown;
        Preview.postMessage
          (Preview.updateHTML (Preview.html r) (Preview.tocHTML r)
             (Preview.getLineCount ed) (Preview.getPath ed)
             (Js.or (Preview.yaml_id (Preview.yamlConfig r)) (Js.Str ""))
             (Js.or (Preview.yaml_class (Preview.yamlConfig r)) (Js.Str "")))]
  /\ (Preview.loadPreview ∉ effects)
  /\ forall a b, Preview.isArrayEqual [a; b] [b; a] = true.
Proof.
  intros Hed Hmode Hperm Hflag.
  rewrite (renderMarkdown_patches Preview.isArrayEqual v ed r Hed Hmode
             (isArrayEqual_permutation _ _ Hperm) Hflag).
  split_and!; try done.
  - intros Hin. apply list_elem_of_In in Hin. simpl in Hin.
    destruct Hin as [H | [H | []]]; discriminate H.
  - intros a b. apply isArrayEqual_permutation. apply perm_swap.
Qed.

(** C3, the code at a rejected parse. [renderMarkdown] chains only a
    [.then] callback on [parseMD]: when the promise rejects, the session
    is left as it was, the parsing notice has already been posted, and no
    error notification is among the effects; the rejection goes
    unhandled. *)
Theorem render_rejection_is_not_reported
  (equal : list string -> list string -> bool) (v : Preview.View) (e : string) :
  (let '(v', effects) := Preview.renderMarkdown equal v (Preview.Rejected e) in
   v' = v /\ forall text, Preview.addError text ∉ effects)
  /\ Preview.renderMarkdown equal Samples.topOfLongDocument
       (Preview.Rejected "parse failed")
     = (Samples.topOfLongDocument,
        [Preview.postMessage Preview.startParsingMarkdown;
         Preview.unhandledRejection "parse failed"]).
Proof.
  split; [|reflexivity].
  unfold Preview.renderMarkdown.
  destruct (Preview.editor v); [|split; [done | intros text; apply not_elem_of_nil]].
  destruct (Preview.isPreviewInPresentationMode v);
    (split; [done|]); intros text Hin; apply list_elem_of_In in Hin;
    simpl in Hin; intuition discriminate.
Qed.

(** ** The engine table *)

Section EngineFacts.
Import EngineCache.

Lemma binds_cons (p : Process) (path dir : string) (rest : list (string * string)) :
  binds p ((path, dir) :: rest)
  = ((initEngine p path dir).1 :: (binds (initEngine p path dir).2 rest).1,
     (binds (initEngine p path dir).2 rest).2).
Proof.
  simpl. destruct (initEngine p path dir) as [l p']. simpl.
  by destruct (binds p' rest).
Qed.

Lemma binds_app (p : Process) (l1 l2 : list (string * string)) :
  binds p (l1 ++ l2)
  = ((binds p l1).1 ++ (binds (binds p l1).2 l2).1,
     (binds (binds p l1).2 l2).2).
Proof.
  revert p; induction l1 as [|[path dir] l1 IH]; intros p.
  - simpl. by destruct (binds p l2).
  - rewrite <- app_comm_cons, !binds_cons, IH. done.
Qed.

Lemma binds_length (p : Process) (requests : list (string * string)) :
  length (binds p requests).1 = length requests.
Proof.
  revert p; induction requests as [|[path dir] rest IH]; intros p; [done|].
  rewrite binds_cons. simpl. by rewrite IH.
Qed.

(** A lookup that finds the key returns what is stored and constructs
    nothing. *)
Lemma initEngine_hit (p : Process) (path dir : string) :
  hasProperty (MARKDOWN_ENGINES_MAP p) path = true ->
  initEngine p path dir
  = ({| engine := getProperty (MARKDOWN_ENGINES_MAP p) path;
        constructs := false |}, p).
Proof. intros H. unfold initEngine. by rewrite H. Qed.

(** After any lookup the key is in the table, bound to what the lookup
    returned. *)
Lemma initEngine_has (p : Process) (path dir : string) :
  hasProperty (MARKDOWN_ENGINES_MAP (initEngine p path dir).2) path = true
  /\ getProperty (MARKDOWN_ENGINES_MAP (initEngine p path dir).2) path
     = engine (initEngine p path dir).1.
Proof.
  unfold initEngine.
  destruct (hasProperty (MARKDOWN_ENGINES_MAP p) path) eqn:E; simpl; [done|].
  unfold hasProperty, getProperty. rewrite lookup_insert_eq. split; [|done].
  apply orb_true_iff. left. by apply bool_decide_eq_true.
Qed.

(** A key that is in the table stays, with the same value. *)
Lemma initEngine_keeps (p : Process) (path dir key : string) :
  hasProperty (MARKDOWN_ENGINES_MAP p) key = true ->
  hasProperty (MARKDOWN_ENGINES_MAP (initEngine p path dir).2) key = true
  /\ getProperty (MARKDOWN_ENGINES_MAP (initEngine p path dir).2) key
     = getProperty (MARKDOWN_ENGINES_MAP p) key.
Proof.
  intros Hkey. unfold initEngine.
  destruct (hasProperty (MARKDOWN_ENGINES_MAP p) path) eqn:E; simpl; [done|].
  assert (path <> key) by (intros ->; congruence).
  unfold hasProperty, getProperty in *. by rewrite lookup_insert_ne.
Qed.

Lemma binds_keeps (p : Process) (requests : list (string * string)) (key : string) :
  hasProperty (MARKDOWN_ENGINES_MAP p) key = true ->
  hasProperty (MARKDOWN_ENGINES_MAP (binds p requests).2) key = true
  /\ getProperty (MARKDOWN_ENGINES_MAP (binds p requests).2) key
     = getProperty (MARKDOWN_ENGINES_MAP p) key.
Proof.
  revert p; induction requests as [|[path dir] rest IH]; intros p Hkey; [done|].
  rewrite binds_cons. simpl.
  destruct (initEngine_keeps p path dir key Hkey) as [Hhas Hget].
  destruct (IH _ Hhas) as [Hhas' Hget']. split; [done | congruence].
Qed.

(** Lookups of other keys leave a missing key missing. *)
Lemma binds_untouched (p : Process) (requests : list (string * string))
  (key : string) :
  MARKDOWN_ENGINES_MAP p !! key = None ->
  (forall i dir, requests !! i <> Some (key, dir)) ->
  MARKDOWN_ENGINES_MAP (binds p requests).2 !! key = None.
Proof.
  revert p; induction requests as [|[path dir] rest IH]; intros p Hnone Hother;
    [done|].
  rewrite binds_cons. simpl. apply IH.
  - assert (path <> key) by (intros ->; by apply (Hother 0%nat dir)).
    unfold initEngine.
    destruct (hasProperty (MARKDOWN_ENGINES_MAP p) path); simpl; [done|].
    by rewrite lookup_insert_ne.
  - intros i dir'. apply (Hother (S i) dir').
Qed.

Lemma start_consistent : consistent start.
Proof. intros path. done. Qed.

Lemma initEngine_consistent (p : Process) (path dir : string) :
  consistent p -> consistent (initEngine p path dir).2.
Proof.
  intros Hp key. unfold initEngine.
  destruct (hasProperty (MARKDOWN_ENGINES_MAP p) path) eqn:E; simpl; [done|].
  apply orb_false_iff in E as [E _]. apply bool_decide_eq_false in E.
  assert (Hnone : MARKDOWN_ENGINES_MAP p !! path = None).
  { destruct (MARKDOWN_ENGINES_MAP p !! path) eqn:El; [|done].
    exfalso. apply E. eauto. }
  pose proof (Hp key) as Hkey.
  unfold constructedFor in *. simpl. rewrite filter_app, Hkey.
  destruct (decide (path = key)) as [<-|Hne].
  - rewrite Hnone, lookup_insert_eq, filter_cons_True by done. done.
  - rewrite lookup_insert_ne, filter_cons_False by done.
    by rewrite filter_nil, app_nil_r.
Qed.

Lemma binds_consistent (p : Process) (requests : list (string * string)) :
  consistent p -> consistent (binds p requests).2.
Proof.
  revert p; induction requests as [|[path dir] rest IH]; intros p Hp; [done|].
  rewrite binds_cons. simpl. by apply IH, initEngine_consistent.
Qed.

(** The lookup at position [i] of a run is a lookup in the state the
    earlier requests left. *)
Lemma binds_at (p : Process) (requests : list (string * string))
  (i : nat) (path dir : string) :
  requests !! i = Some (path, dir) ->
  let before := (binds p (take i requests)).2 in
  (binds p requests).1 !! i = Some (initEngine before path dir).1
  /\ (binds p requests).2
     = (binds (initEngine before path dir).2 (drop (S i) requests)).2.
Proof.
  intros Hi before.
  pose proof (lookup_lt_Some _ _ _ Hi) as Hlt.
  assert (Hrun : binds p requests
            = ((binds p (take i requests)).1
                 ++ (initEngine before path dir).1
                 :: (binds (initEngine before path dir).2
                       (drop (S i) requests)).1,
               (binds (initEngine before path dir).2 (drop (S i) requests)).2)).
  { rewrite <- (take_drop_middle requests i (path, dir) Hi) at 1.
    by rewrite binds_app, binds_cons. }
  rewrite Hrun. simpl. split; [|done].
  rewrite lookup_app_r; rewrite binds_length, length_take_le by lia; [|lia].
  by rewrite Nat.sub_diag.
Qed.

End EngineFacts.

(** C5. In any run of editor binds, from any sessions, at most one engine
    is ever constructed for a path. For a document path (a file path,
    hence no member name of [Object.prototype]) the first lookup
    constructs the engine and stores it in the table; and whenever the
    same path is looked up twice, the later lookup constructs nothing and
    returns the very object the earlier one returned. *)
Theorem engine_constructed_once
  (requests : list (string * string)) (path : string) :
  let outs := (EngineCache.binds EngineCache.start requests).1 in
  let final := (EngineCache.binds EngineCache.start requests).2 in
  (length (EngineCache.constructedFor final path) <= 1)%nat
  /\ (path ∉ EngineCache.objectPrototypeKeys ->
      forall i dir,
        requests !! i = Some (path, dir) ->
        (forall j dir', (j < i)%nat -> requests !! j <> Some (path, dir')) ->
        exists e,
          outs !! i = Some {| EngineCache.engine := EngineCache.engineSlot e;
                              EngineCache.constructs := true |}
          /\ EngineCache.filePath e = path
          /\ EngineCache.MARKDOWN_ENGINES_MAP final !! path = Some e
          /\ EngineCache.constructedFor final path = [e])
  /\ (forall i j dir dir',
        (i < j)%nat ->
        requests !! i = Some (path, dir) ->
        requests !! j = Some (path, dir') ->
        exists slot,
          EngineCache.engine <$> outs !! i = Some slot
          /\ outs !! j = Some {| EngineCache.engine := slot;
                                 EngineCache.constructs := false |}).
Proof.
  intros outs final.
  pose proof (binds_consistent EngineCache.start requests start_consistent)
    as Hfinal. fold final in Hfinal.
  split_and!.
  - rewrite (Hfinal path).
    destruct (EngineCache.MARKDOWN_ENGINES_MAP final !! path); simpl; lia.
  - intros Hpath i dir Hi Hfirst.
    destruct (binds_at EngineCache.start requests i path dir Hi) as [Hout Hrest].
    fold outs in Hout. fold final in Hrest.
    set (before := (EngineCache.binds EngineCache.start (take i requests)).2) in *.
    assert (Hnone : EngineCache.MARKDOWN_ENGINES_MAP before !! path = None).
    { apply binds_untouched; [done|]. intros k dir' Hk.
      pose proof (lookup_lt_Some _ _ _ Hk) as Hlt.
      rewrite length_take in Hlt.
      rewrite lookup_take_lt in Hk by lia. apply (Hfirst k dir'); [lia | done]. }
    assert (Hmiss :
      EngineCache.hasProperty (EngineCache.MARKDOWN_ENGINES_MAP before) path = false).
    { unfold EngineCache.hasProperty. rewrite Hnone. apply orb_false_iff. split.
      - apply bool_decide_eq_false. by intros [? ?].
      - by apply bool_decide_eq_false. }
    set (e := {| EngineCache.ref := length (EngineCache.constructed before);
                 EngineCache.filePath := path;
                 EngineCache.projectDirectoryPath := dir |}).
    assert (Hlookup : (EngineCache.initEngine before path dir).1
              = {| EngineCache.engine := EngineCache.engineSlot e;
                   EngineCache.constructs := true |}).
    { unfold EngineCache.initEngine. by rewrite Hmiss. }
    destruct (initEngine_has before path dir) as [Hhas Hget].
    destruct (binds_keeps _ (drop (S i) requests) path Hhas) as [_ Hget'].
    rewrite <- Hrest, Hget, Hlookup in Hget'. simpl in Hget'.
    assert (Hstored : EngineCache.MARKDOWN_ENGINES_MAP final !! path = Some e).
    { unfold EngineCache.getProperty in Hget'.
      destruct (EngineCache.MARKDOWN_ENGINES_MAP final !! path); congruence. }
    exists e. split_and!; [by rewrite Hout, Hlookup | done | done |].
    by rewrite (Hfinal path), Hstored.
  - intros i j dir dir' Hij Hi Hj.
    destruct (binds_at EngineCache.start requests i path dir Hi) as [Hout _].
    destruct (binds_at EngineCache.start requests j path dir' Hj) as [Hout' _].
    fold outs in Hout, Hout'.
    assert (Hi' : take j requests !! i = Some (path, dir))
      by (by rewrite lookup_take_lt).
    destruct (binds_at EngineCache.start (take j requests) i path dir Hi')
      as [_ Hbefore].
    rewrite take_take, Nat.min_l in Hbefore by lia.
    set (before := (EngineCache.binds EngineCache.start (take i requests)).2) in *.
    destruct (initEngine_has before path dir) as [Hhas Hget].
    destruct (binds_keeps _ (drop (S i) (take j requests)) path Hhas)
      as [Hhas' Hget'].
    rewrite <- Hbefore in Hhas', Hget'.
    exists (EngineCache.engine (EngineCache.initEngine before path dir).1).
    split; [by rewrite Hout|].
    rewrite Hout', (initEngine_hit _ path dir' Hhas'). simpl.
    by rewrite Hget', Hget.
Qed.

(** ** The scroll animation *)

Section AnimationFacts.
Import ScrollAnimation.
Context {P : Pixels}.

Lemma clearTimeout_own (t : Timer) : clearTimeout (handle t) [t] = [].
Proof.
  unfold clearTimeout. rewrite filter_cons_False; [done|].
  intros Hne. by apply Hne.
Qed.

Lemma tick_pending (st : State) (t : Timer) (now : Z) :
  timers st = [t] -> tick st now = callback (expired st) t now.
Proof.
  intros Ht. unfold tick, fire. rewrite Ht. simpl.
  rewrite decide_True by done. simpl. by rewrite clearTimeout_own.
Qed.

Lemma tick_idle (st : State) (now : Z) : timers st = [] -> tick st now = st.
Proof. intros Ht. unfold tick. by rewrite Ht. Qed.

Lemma ticks_idle (st : State) (clock : list Z) :
  timers st = [] -> ticks st clock = st.
Proof.
  revert st; induction clock as [|now clock IH]; intros st Ht; [done|].
  simpl. rewrite tick_idle by done. by apply IH.
Qed.

(** The three ways a callback can go. *)
Lemma tick_last (st : State) (t : Timer) (now : Z) :
  timers st = [t] -> duration t <= 0 ->
  timers (tick st now) = []
  /\ editorScrollTop (tick st now) = clampScrollTop (scrollTop t).
Proof.
  intros Ht Hd. rewrite (tick_pending st t now Ht). unfold callback.
  by order_case (duration t <=? 0).
Qed.

Lemma tick_arrived (st : State) (t : Timer) (now : Z) :
  timers st = [t] -> 0 < duration t ->
  looseEq (stepped st t) (scrollTop t) = true ->
  timers (tick st now) = []
  /\ editorScrollTop (tick st now) = clampScrollTop (stepped st t).
Proof.
  intros Ht Hd Heq. rewrite (tick_pending st t now Ht). unfold callback.
  order_case (duration t <=? 0).
  change (stepped (expired st) t) with (stepped st t). by rewrite Heq.
Qed.

Lemma tick_again (st : State) (t : Timer) (now : Z) :
  timers st = [t] -> 0 < duration t ->
  looseEq (stepped st t) (scrollTop t) = false ->
  exists t',
    timers (tick st now) = [t']
    /\ duration t' = duration t - delay
    /\ scrollTop t' = scrollTop t
    /\ scrollTimeout (tick st now) = Some (handle t')
    /\ editorScrollTop (tick st now) = clampScrollTop (stepped st t).
Proof.
  intros Ht Hd Heq. rewrite (tick_pending st t now Ht). unfold callback.
  order_case (duration t <=? 0).
  change (stepped (expired st) t) with (stepped st t). rewrite Heq.
  eexists. by split_and!.
Qed.

(** A pending timer with at most [k] ticks of duration left is gone
    after [k + 1] expiries. *)
Lemma ticks_finish (k : nat) (st : State) (t : Timer) (clock : list Z) :
  timers st = [t] -> duration t <= delay * Z.of_nat k ->
  length clock = S k ->
  timers (ticks st clock) = [].
Proof.
  revert st t clock; induction k as [|k IH]; intros st t clock Ht Hd Hclock;
    destruct clock as [|now clock]; try done; simpl.
  - destruct clock; [|done]. by apply tick_last with (t := t); [|unfold delay in *; lia].
  - destruct (decide (duration t <= 0)) as [Hlast|Hmore].
    + rewrite ticks_idle; by apply (tick_last st t now).
    + destruct (looseEq (stepped st t) (scrollTop t)) eqn:Heq.
      * rewrite ticks_idle; by apply (tick_arrived st t now); [|lia|].
      * destruct (tick_again st t now Ht ltac:(lia) Heq)
          as (t' & Ht' & Hd' & _).
        apply (IH _ t'); [done | unfold delay in *; lia |].
        simpl in Hclock. lia.
Qed.

(** An accepted reveal request leaves exactly its own timer pending. *)
Lemma request_replaces (st : State) (row now : Z) :
  single st -> editorBound st = true -> 0 <= row ->
  exists t,
    timers (scrollToBufferPosition st row now) = [t]
    /\ duration t = scrollDuration
    /\ scrollTop t = targetOf st row
    /\ scrollTimeout (scrollToBufferPosition st row now) = Some (handle t).
Proof.
  intros Hsingle Hbound Hrow. unfold scrollToBufferPosition.
  rewrite Hbound. simpl. order_case (row <? 0).
  assert (Hcleared :
    match scrollTimeout st with
    | Some h => clearTimeout h (timers st)
    | None => timers st
    end = []).
  { destruct Hsingle as [Hnone | (t & Ht & Hh)].
    - rewrite Hnone. by destruct (scrollTimeout st).
    - rewrite Hh, Ht. apply clearTimeout_own. }
  unfold helper. simpl. rewrite Hcleared. eexists. by split_and!.
Qed.

Lemma step_single (st : State) (e : Event) : single st -> single (step st e).
Proof.
  intros Hsingle. destruct e as [row now | h now]; simpl.
  - destruct (editorBound st) eqn:Hbound;
      [|unfold scrollToBufferPosition; by rewrite Hbound].
    destruct (decide (0 <= row)) as [Hrow|Hrow].
    + destruct (request_replaces st row now Hsingle Hbound Hrow)
        as (t & Ht & _ & _ & Hh). right. eauto.
    + unfold scrollToBufferPosition. rewrite Hbound. simpl.
      by order_case (row <? 0).
  - destruct Hsingle as [Hnone | (t & Ht & Hh)].
    + unfold fire. rewrite Hnone. simpl. by left.
    + destruct (decide (handle t = h)) as [<-|Hne].
      * assert (Htick : fire st (handle t) now = tick st now)
          by (unfold tick; by rewrite Ht).
        rewrite Htick.
        destruct (decide (duration t <= 0)) as [Hlast|Hmore].
        { left. by apply (tick_last st t now). }
        destruct (looseEq (stepped st t) (scrollTop t)) eqn:Heq.
        { left. by apply (tick_arrived st t now); [|lia|]. }
        destruct (tick_again st t now Ht ltac:(lia) Heq)
          as (t' & Ht' & _ & _ & Hh' & _).
        right. eauto.
      * unfold fire. rewrite Ht. simpl. rewrite decide_False by done.
        simpl. right. eauto.
Qed.

Lemma run_single (st : State) (events : list Event) :
  single st -> single (run st events).
Proof.
  revert st; induction events as [|e events IH]; intros st Hst; [done|].
  simpl. by apply IH, step_single.
Qed.

Lemma single_bound (st : State) : single st -> (length (timers st) <= 1)%nat.
Proof. intros [-> | (t & -> & _)]; simpl; lia. Qed.

End AnimationFacts.

Section AnimationRuns.
Import ScrollAnimation.
Context {P : Pixels}.

Lemma tick_single (st : State) (now : Z) : single st -> single (tick st now).
Proof.
  intros Hsingle. unfold tick. destruct (timers st) as [|t pending]; [done|].
  by apply (step_single st (expire (handle t) now)).
Qed.

Lemma ticks_single (st : State) (clock : list Z) :
  single st -> single (ticks st clock).
Proof.
  revert st; induction clock as [|now clock IH]; intros st Hst; [done|].
  simpl. by apply IH, tick_single.
Qed.

Lemma fresh_single (now : Z) (bound : bool) (rows : Z -> Z)
  (lineHeight height top : number) :
  single (fresh now bound rows lineHeight height top).
Proof. by left. Qed.

End AnimationRuns.

(** C9. An accepted [scrollToBufferPosition] call drops the timer of any
    animation in flight and leaves exactly one timer pending, of duration
    120. Each expiry either finds the duration used up and sets the offset
    to the target, or steps the offset and stops at once when the stepped
    offset equals the target, or else sets one new timer with the duration
    lowered by 10. So after at most 13 expiries (durations 120, 110, ...,
    10, 0) no timer is pending, whatever the pixel arithmetic does; and at
    every moment of every run at most one timer is pending. *)
Theorem scroll_animation_terminates `{P : ScrollAnimation.Pixels}
  (st : ScrollAnimation.State) (row now : Z) (clock : list Z) :
  ScrollAnimation.single st ->
  ScrollAnimation.editorBound st = true ->
  0 <= row ->
  length clock = 13%nat ->
  let started := ScrollAnimation.scrollToBufferPosition st row now in
  (exists t,
      ScrollAnimation.timers started = [t]
      /\ ScrollAnimation.duration t = 120
      /\ ScrollAnimation.scrollTop t = ScrollAnimation.targetOf st row
      /\ ScrollAnimation.scrollTimeout started = Some (ScrollAnimation.handle t))
  /\ ScrollAnimation.timers (ScrollAnimation.ticks started clock) = []
  /\ (forall n,
        (length (ScrollAnimation.timers
                   (ScrollAnimation.ticks started (take n clock))) <= 1)%nat)
  /\ (forall s t at_,
        ScrollAnimation.timers s = [t] ->
        (ScrollAnimation.duration t <= 0 ->
         ScrollAnimation.timers (ScrollAnimation.tick s at_) = []
         /\ ScrollAnimation.editorScrollTop (ScrollAnimation.tick s at_)
            = ScrollAnimation.clampScrollTop (ScrollAnimation.scrollTop t))
        /\ (0 < ScrollAnimation.duration t ->
            ScrollAnimation.looseEq (ScrollAnimation.stepped s t)
              (ScrollAnimation.scrollTop t) = true ->
            ScrollAnimation.timers (ScrollAnimation.tick s at_) = [])
        /\ (0 < ScrollAnimation.duration t ->
            ScrollAnimation.looseEq (ScrollAnimation.stepped s t)
              (ScrollAnimation.scrollTop t) = false ->
            exists t',
              ScrollAnimation.timers (ScrollAnimation.tick s at_) = [t']
              /\ ScrollAnimation.duration t' = ScrollAnimation.duration t - 10
              /\ ScrollAnimation.scrollTop t' = ScrollAnimation.scrollTop t))
  /\ (forall events,
        (length (ScrollAnimation.timers (ScrollAnimation.run st events)) <= 1)%nat)
  /\ (forall created bound rows lineHeight height top events,
        (length (ScrollAnimation.timers
                   (ScrollAnimation.run
                      (ScrollAnimation.fresh created bound rows lineHeight
                         height top)
                      events)) <= 1)%nat).
Proof.
  intros Hsingle Hbound Hrow Hclock started.
  destruct (request_replaces st row now Hsingle Hbound Hrow)
    as (t & Ht & Hd & Htarget & Hh).
  fold started in Ht, Hh.
  assert (Hstarted : ScrollAnimation.single started) by (right; eauto).
  split_and!.
  - exists t. by split_and!.
  - apply (ticks_finish 12 started t clock Ht); [|done].
    rewrite Hd. unfold ScrollAnimation.scrollDuration, ScrollAnimation.delay. lia.
  - intros n. by apply single_bound, ticks_single.
  - intros s t0 at_ Hs. split_and!.
    + intros Hlast. by apply tick_last.
    + intros Hmore Heq. by apply (tick_arrived s t0 at_).
    + intros Hmore Heq.
      destruct (tick_again s t0 at_ Hs Hmore Heq) as (t' & ? & ? & ? & _).
      exists t'. by split_and!.
  - intros events. by apply single_bound, run_single.
  - intros created bound rows lineHeight height top events.
    apply single_bound, run_single, fresh_single.
Qed.

(** ** The theorems at sample sessions *)

Lemma forall_range (f : Z -> bool) (lo : Z) (n : nat) :
  forallb f (seqZ lo (Z.of_nat n)) = true ->
  forall k, lo <= k < lo + Z.of_nat n -> f k = true.
Proof.
  intros Hall k Hk. rewrite forallb_forall in Hall. apply Hall.
  apply list_elem_of_In, elem_of_seqZ. lia.
Qed.

(** C1 at a cursor on row 10 of a view showing rows 0 to 20. *)
Lemma cursor_topRatio_sample :
  Preview.onDidChangeCursorPosition Samples.topOfLongDocument 1000
    {| Preview.newScreenPosition_row := 10; Preview.newBufferPosition_row := 10 |}
  = Js.Ok [Preview.postMessage
             (Preview.changeTextEditorSelection 10 (Preview.topRatioOf 10 0 20))]
  /\ Js.inUnitInterval (Preview.topRatioOf 10 0 20).
Proof.
  pose proof (cursor_topRatio_is_plain_quotient Samples.topOfLongDocument
                (Samples.editorOn Samples.longDocument 0 20) 1000
                {| Preview.newScreenPosition_row := 10;
                   Preview.newBufferPosition_row := 10 |}
                eq_refl ltac:(simpl; lia) eq_refl) as (Hpost & Hrange & _).
  split; [exact Hpost|].
  apply Hrange; simpl; lia.
Defined.

(** C2 at a render that returns the stored dependencies in the other
    order. *)
Lemma render_patch_sample :
  Preview.renderMarkdown Preview.isArrayEqual Samples.topOfLongDocument
    (Preview.Resolved
       {| Preview.html := "<p>hi</p>";
          Preview.tocHTML := "";
          Preview.parsed_JSAndCssFiles := ["chart.js"; "style.css"];
          Preview.yamlConfig :=
            {| Preview.isPresentationMode := Js.Undefined;
               Preview.yaml_id := Js.Undefined;
               Preview.yaml_class := Js.Str "wide" |} |})
  = (Samples.topOfLongDocument,
     [Preview.postMessage Preview.startParsingMarkdown;
      Preview.postMessage
        (Preview.updateHTML "<p>hi</p>" "" 50 "/home/user/notes.md"
           (Js.Str "") (Js.Str "wide"))]).
Proof.
  pose proof (render_patches_on_permuted_dependencies Samples.topOfLongDocument
                (Samples.editorOn Samples.longDocument 0 20)
                {| Preview.html := "<p>hi</p>";
                   Preview.tocHTML := "";
                   Preview.parsed_JSAndCssFiles := ["chart.js"; "style.css"];
                   Preview.yamlConfig :=
                     {| Preview.isPresentationMode := Js.Undefined;
                        Preview.yaml_id := Js.Undefined;
                        Preview.yaml_class := Js.Str "wide" |} |}
                eq_refl eq_refl (perm_swap _ _ _) eq_refl) as H.
  destruct (Preview.renderMarkdown _ _ _) as [v' effects].
  destruct H as (-> & -> & _). reflexivity.
Defined.

(** C4 at the document whose hint stands on rows 17 and 21. *)
Lemma upload_hint_sample :
  Preview.setUploadedImageURL Samples.shiftedView "p.png"
    "https://i.example/p.png" Samples.hint 20
  = Js.Ok (Preview.setLines Samples.shiftedView
             (Samples.editorOn Samples.shiftedDocument 0 20)
             (Preview.hintReplaced Samples.shiftedDocument 17
                ("see " +:+ Samples.hint) Samples.hint
                "![p](https://i.example/p.png)")).
Proof.
  pose proof (upload_hint_resolution Samples.shiftedView
                (Samples.editorOn Samples.shiftedDocument 0 20)
                "p.png" "https://i.example/p.png" Samples.hint 20 eq_refl)
    as (_ & Hscan & _).
  apply (Hscan 17 ("see " +:+ Samples.hint)).
  - reflexivity.
  - lia.
  - apply (forall_range _ 0 17). reflexivity.
  - reflexivity.
  - apply Z.leb_le. reflexivity.
Defined.

(** C5 at four binds of two documents. *)
Lemma engine_sample :
  let outs := (EngineCache.binds EngineCache.start Samples.bindRequests).1 in
  (exists e,
      outs !! 0%nat = Some {| EngineCache.engine := EngineCache.engineSlot e;
                              EngineCache.constructs := true |}
      /\ EngineCache.filePath e = "/home/user/notes.md")
  /\ (exists slot,
         EngineCache.engine <$> outs !! 0%nat = Some slot
         /\ outs !! 3%nat = Some {| EngineCache.engine := slot;
                                    EngineCache.constructs := false |}).
Proof.
  pose proof (engine_constructed_once Samples.bindRequests "/home/user/notes.md")
    as (_ & Hfirst & Hlater).
  split.
  - destruct (Hfirst ltac:(rewrite list_elem_of_In; simpl; intuition discriminate)
                0%nat "/home/user" eq_refl ltac:(intros; lia))
      as (e & Hout & Hpath & _).
    eauto.
  - apply (Hlater 0%nat 3%nat "/home/user" ""); [lia | reflexivity | reflexivity].
Defined.

(** C6 at the last row of a task list. *)
Lemma task_checkbox_sample :
  exists ls1 ls2,
    Preview.clickTaskListCheckbox Samples.taskView 3
    = Js.Ok (Preview.setLines Samples.taskView
               (Samples.editorOn ["# Tasks"; ""; "- [x] done"; "- [ ] todo"] 0 3)
               ls1)
    /\ TextBuffer.lineAt ls1 3 = Some "- [x] todo"
    /\ TextBuffer.lineAt ls2 3 = Some "- [ ] todo".
Proof.
  destruct (task_checkbox_toggle Samples.taskView
              (Samples.editorOn ["# Tasks"; ""; "- [x] done"; "- [ ] todo"] 0 3)
              3 eq_refl eq_refl)
    as (ls1 & ls2 & H1 & _ & Hchecked & Hunchecked & _).
  exists ls1, ls2. auto.
Defined.

(** C7 at a view of rows 10 to 31 of a fifty-row document. *)
Lemma syncPreview_sample :
  exists mid,
    2 * mid <= 10 + 31 < 2 * mid + 2
    /\ Preview.syncPreview (Samples.viewOf (Samples.editorOn Samples.longDocument 10 31))
       = [Preview.postMessage
            (Preview.changeTextEditorSelection mid (Js.Fin (1 # 2)))].
Proof.
  pose proof (syncPreview_snap_policy
                (Samples.viewOf (Samples.editorOn Samples.longDocument 10 31))
                (Samples.editorOn Samples.longDocument 10 31) eq_refl)
    as (_ & _ & Hmid).
  apply Hmid; simpl; lia.
Defined.

(** C8 at [photo.png] pasted over an existing [photo.png]. *)
Lemma paste_collision_sample :
  Preview.renameOnCollision (Samples.lastSegment "/tmp/photo.png") "k3j9x2m1q"
  = ("photo", "photo_k3j9x2m1q.png")
  /\ exists directory,
       Preview.pasteImageFile Samples.lastSegment Samples.lastSegment
         Samples.joinPath Samples.topOfLongDocument "/home/user"
         "/tmp/photo.png" "k3j9x2m1q" Preview.statFound
       = [Preview.copyFile "/tmp/photo.png"
            (Samples.joinPath directory "photo_k3j9x2m1q.png");
          Preview.addInfo ("Image photo_k3j9x2m1q.png has been copied to folder "
                             +:+ directory);
          Preview.insertText "![photo](/assets/photo_k3j9x2m1q.png)"].
Proof.
  pose proof (paste_collision_keeps_extension Samples.lastSegment
                Samples.lastSegment Samples.joinPath Samples.topOfLongDocument
                (Samples.editorOn Samples.longDocument 0 20)
                "/home/user" "/tmp/photo.png" "k3j9x2m1q" eq_refl eq_refl)
    as (_ & _ & _ & Hrename & _ & _ & Hpaste).
  split; [exact Hrename | exact Hpaste].
Defined.

(** C9 at a reveal of row 10 in a session at rest, followed by thirteen
    timer expiries. *)
Lemma scroll_animation_sample :
  ScrollAnimation.timers
    (ScrollAnimation.ticks
       (ScrollAnimation.scrollToBufferPosition Samples.atRest 10 1000)
       Samples.thirteenTicks) = [].
Proof.
  pose proof (scroll_animation_terminates Samples.atRest 10 1000
                Samples.thirteenTicks (or_introl eq_refl) eq_refl
                ltac:(lia) eq_refl) as (_ & Hdone & _).
  exact Hdone.
Defined.

(** * Further properties *)

Ltac string_lengths :=
  repeat (rewrite ?length_append, ?append_empty_l; simpl); lia.

(** ** More on strings *)

Section ReplaceFacts.
Import Js.

Lemma startsWith_append (a b : string) : startsWith a (a +:+ b) = true.
Proof.
  induction a as [|c a IH]; [done|].
  rewrite append_cons. simpl. by rewrite Ascii.eqb_refl, IH.
Qed.

(** A text that starts with the pattern is the pattern followed by the
    rest. *)
Lemma startsWith_split (pat s : string) :
  startsWith pat s = true ->
  s = pat +:+ String.substring (String.length pat)
                (String.length s - String.length pat) s.
Proof.
  revert s; induction pat as [|a pat IH]; intros s H.
  - simpl. by rewrite Nat.sub_0_r, substring_whole.
  - destruct s as [|b s]; [done|]. simpl in H.
    apply andb_true_iff in H as [Hab Hrest]. apply Ascii.eqb_eq in Hab as ->.
    rewrite append_cons. simpl. f_equal. by apply IH.
Qed.

(** The first occurrence splits the text around the pattern. *)
Lemma search_split (pat s : string) (k : nat) :
  search pat s = Some k ->
  s = String.substring 0 k s +:+ pat
      +:+ String.substring (k + String.length pat)
            (String.length s - (k + String.length pat)) s.
Proof.
  revert k; induction s as [|c s IH]; intros k; simpl.
  - destruct (startsWith pat "") eqn:E; [|done]. intros [= <-].
    destruct pat; done.
  - destruct (startsWith pat (String c s)) eqn:E.
    + intros [= <-]. rewrite append_empty_l. by apply startsWith_split.
    + destruct (search pat s) as [j|] eqn:Es; [|done]. simpl.
      intros [= <-]. simpl. rewrite append_cons. f_equal. by apply IH.
Qed.

Lemma getSubstitution_plain (matched before after repl : string) :
  Session.hasDollar repl = false ->
  getSubstitution matched before after repl = repl.
Proof.
  induction repl as [|c r IH]; [done|]. simpl.
  destruct (Ascii.eqb c "$"); [done|]. simpl. intros H. by rewrite IH.
Qed.

(** With a replacement free of [$], [replace] swaps the first occurrence
    of the pattern for the replacement and keeps the text around it. *)
Lemma replace_first (s pat repl : string) (k : nat) :
  search pat s = Some k -> Session.hasDollar repl = false ->
  exists before after,
    before = String.substring 0 k s
    /\ s = before +:+ pat +:+ after
    /\ replace s pat repl = before +:+ repl +:+ after.
Proof.
  intros Hk Hrepl. eexists _, _. split; [reflexivity|]. split.
  - by apply search_split.
  - unfold replace. rewrite Hk. by rewrite getSubstitution_plain.
Qed.

Lemma replace_absent (s pat repl : string) :
  search pat s = None -> replace s pat repl = s.
Proof. intros H. unfold replace. by rewrite H. Qed.

Lemma hasLineFeed_append (a b : string) :
  TextBuffer.hasLineFeed (a +:+ b)
  = TextBuffer.hasLineFeed a || TextBuffer.hasLineFeed b.
Proof.
  induction a as [|c a IH]; [done|]. rewrite append_cons. simpl.
  by rewrite IH, orb_assoc.
Qed.

Lemma hasDollar_append (a b : string) :
  Session.hasDollar (a +:+ b) = Session.hasDollar a || Session.hasDollar b.
Proof.
  induction a as [|c a IH]; [done|]. rewrite append_cons. simpl.
  by rewrite IH, orb_assoc.
Qed.

Lemma sliceBound_negative (len i : Z) :
  i < 0 -> sliceBound len i = Z.max (len + i) 0.
Proof. intros H. unfold sliceBound. by order_case (i <? 0). Qed.

End ReplaceFacts.

(** ** File names and descriptions *)

(** X1. The description derived from an image file name is the part
    before the last dot when that dot is at a positive offset and the
    whole name when the only dot is the first character; for a name
    without any dot the test on [lastIndexOf('.')] sees the truthy -1 and
    the description is the name without its last character. *)
Theorem description_of_file_name (name : string) :
  (0 < Js.lastIndexOf name "." ->
   Preview.descriptionOf name
   = String.substring 0 (Z.to_nat (Js.lastIndexOf name ".")) name)
  /\ (Js.lastIndexOf name "." = 0 -> Preview.descriptionOf name = name)
  /\ (Js.searchLast "." name = None ->
      Js.lastIndexOf name "." = -1
      /\ Preview.descriptionOf name
         = String.substring 0 (String.length name - 1) name).
Proof.
  unfold Preview.descriptionOf. split_and!.
  - intros Hpos.
    pose proof (lastIndexOf_positive _ _ Hpos) as Hk.
    pose proof (searchLast_bound _ _ _ Hk) as Hle.
    order_case (Js.lastIndexOf name "." =? 0). simpl.
    rewrite <- (Z2Nat.id (Js.lastIndexOf name ".")) at 1 by lia.
    by apply slice_prefix.
  - intros ->. done.
  - intros Hnone. unfold Js.lastIndexOf. rewrite Hnone. simpl.
    split; [done|]. unfold Js.slice.
    rewrite (sliceBound_negative _ (-1)) by lia. unfold Js.sliceBound. simpl.
    rewrite Z.min_l by lia. f_equal. lia.
Qed.

(** X1 at a name without a dot. *)
Lemma description_of_file_name_sample :
  Js.searchLast "." "photo" = None /\ Preview.descriptionOf "photo" = "phot".
Proof.
  split; [reflexivity|].
  destruct (description_of_file_name "photo") as (_ & _ & Hnone).
  destruct (Hnone eq_refl) as [_ H]. exact H.
Defined.

(** X2. Whatever the file name, the name chosen on a collision is the
    original with the suffix "_" + random spliced in: it is longer than
    the original by one plus the length of the random part, hence
    different from it, and it begins with the description, which is
    itself a prefix of the original name. *)
Theorem collision_name_is_fresh (name random : string) :
  let '(description, produced) := Preview.renameOnCollision name random in
  String.length produced
  = (String.length name + 1 + String.length random)%nat
  /\ produced <> name
  /\ Js.startsWith description produced = true
  /\ Js.startsWith description name = true.
Proof.
  unfold Preview.renameOnCollision.
  destruct (0 <? Js.lastIndexOf name ".") eqn:E; reflect_order.
  - pose proof (lastIndexOf_positive _ _ E) as Hk.
    pose proof (searchLast_bound _ _ _ Hk) as Hle.
    set (k := Z.to_nat (Js.lastIndexOf name ".")) in *.
    replace (Js.lastIndexOf name ".") with (Z.of_nat k)
      by (unfold k; apply Z2Nat.id; lia).
    rewrite slice_prefix, slice_suffix by done.
    pose proof (substring_split name k Hle) as Hsplit.
    pose proof (f_equal String.length Hsplit) as Hlen.
    rewrite length_append in Hlen.
    assert (Hproduced :
      String.length (String.substring 0 k name +:+ ("_" +:+ random)
                       +:+ String.substring k (String.length name - k) name)
      = (String.length name + 1 + String.length random)%nat).
    { string_lengths. }
    split_and!.
    + exact Hproduced.
    + intros Heq. rewrite Heq in Hproduced. lia.
    + apply startsWith_append.
    + rewrite <- Hsplit at 2. apply startsWith_append.
  - assert (Hproduced :
      String.length (name +:+ "_" +:+ random)
      = (String.length name + 1 + String.length random)%nat).
    { string_lengths. }
    split_and!.
    + exact Hproduced.
    + intros Heq. rewrite Heq in Hproduced. lia.
    + apply startsWith_append.
    + rewrite <- (append_empty_r name) at 2. apply startsWith_append.
Qed.

(** X3. Whenever [pasteImageFile] inserts an image reference, the file
    named in the reference is the file the image was copied to, and the
    copy comes first; when the destination did not exist the original
    file name is kept. A failing [fs.stat] only shows the error, and
    without an editor nothing happens at all. *)
Theorem paste_links_the_copied_file
  (basename dirname : string -> string) (resolve : string -> string -> string)
  (v : Preview.View) (projectDirectoryPath imageFilePath random : string)
  (stat : Preview.Stat) :
  let effects :=
    Preview.pasteImageFile basename dirname resolve v projectDirectoryPath
      imageFilePath random stat in
  (Preview.editor v = None -> effects = [])
  /\ (forall e, stat = Preview.statFailed e ->
                is_Some (Preview.editor v) -> effects = [Preview.addError e])
  /\ (is_Some (Preview.editor v) ->
      stat = Preview.statFound \/ stat = Preview.statENOENT ->
      exists directory fileName description,
        effects
        = [Preview.copyFile imageFilePath (resolve directory fileName);
           Preview.addInfo ("Image " +:+ fileName
                              +:+ " has been copied to folder " +:+ directory);
           Preview.insertText
             (Preview.imageMarkdown description
                (Preview.pastedUrl (Preview.imageFolderPath v) fileName))]
        /\ (stat = Preview.statENOENT -> fileName = basename imageFilePath)).
Proof.
  intros effects. unfold effects, Preview.pasteImageFile. split_and!.
  - by intros ->.
  - intros e -> [ed ->]. done.
  - intros [ed ->] [-> | ->].
    + destruct (Preview.renameOnCollision (basename imageFilePath) random)
        as [description produced].
      eexists _, produced, description. split; [reflexivity | done].
    + eexists _, _, _. split; [reflexivity | done].
Qed.

(** X3 at a paste of a new file whose name holds a space. *)
Lemma paste_links_sample :
  exists directory fileName description,
    Preview.pasteImageFile Samples.lastSegment Samples.lastSegment
      Samples.joinPath Samples.topOfLongDocument "/home/user" "/tmp/my cat.png"
      "k3j9x2m1q" Preview.statENOENT
    = [Preview.copyFile "/tmp/my cat.png" (Samples.joinPath directory fileName);
       Preview.addInfo ("Image " +:+ fileName
                          +:+ " has been copied to folder " +:+ directory);
       Preview.insertText
         (Preview.imageMarkdown description
            (Preview.pastedUrl "/assets" fileName))]
    /\ fileName = Samples.lastSegment "/tmp/my cat.png".
Proof.
  destruct (paste_links_the_copied_file Samples.lastSegment Samples.lastSegment
              Samples.joinPath Samples.topOfLongDocument "/home/user"
              "/tmp/my cat.png" "k3j9x2m1q" Preview.statENOENT)
    as (_ & _ & Hlink).
  destruct (Hlink (mk_is_Some _ _ eq_refl) (or_intror eq_refl))
    as (directory & fileName & description & Heffects & Hname).
  exists directory, fileName, description.
  split; [exact Heffects | exact (Hname eq_refl)].
Defined.

(** ** The task list checkbox, for any row *)

Section ToggleFacts.
Import Js Preview TextBuffer.

Lemma search_bound (pat s : string) (k : nat) :
  search pat s = Some k -> (k <= String.length s)%nat.
Proof.
  revert k; induction s as [|c s IH]; intros k Hk; simpl in Hk.
  - destruct (startsWith pat ""); inversion Hk; lia.
  - destruct (startsWith pat (String c s)); [inversion Hk; lia|].
    destruct (search pat s) as [j|]; inversion Hk.
    specialize (IH j eq_refl). simpl. lia.
Qed.

Lemma searchCheckedBox_bound (s : string) (k : nat) :
  searchCheckedBox s = Some k -> (k <= String.length s)%nat.
Proof.
  revert k; induction s as [|c s IH]; intros k Hk; simpl in Hk; [done|].
  destruct (checkedBoxAt (String c s)); [inversion Hk; lia|].
  destruct (searchCheckedBox s) as [j|]; inversion Hk.
  specialize (IH j eq_refl). simpl. lia.
Qed.

Lemma searchCheckedBox_split (s : string) (k : nat) :
  searchCheckedBox s = Some k ->
  exists box,
    (box = "[x]" \/ box = "[X]")
    /\ s = String.substring 0 k s +:+ box
           +:+ String.substring (k + 3) (String.length s - (k + 3)) s.
Proof.
  revert k; induction s as [|c s IH]; intros k Hk; simpl in Hk; [done|].
  destruct (checkedBoxAt (String c s)) eqn:E.
  - inversion Hk; subst k. rewrite substring_none.
    apply orb_true_iff in E as [E | E]; apply startsWith_split in E.
    + exists "[x]". split; [by left | rewrite append_empty_l; exact E].
    + exists "[X]". split; [by right | rewrite append_empty_l; exact E].
  - destruct (searchCheckedBox s) as [j|] eqn:Es; inversion Hk; subst k.
    destruct (IH j eq_refl) as (box & Hbox & Hs).
    exists box. split; [done|].
    change (String.substring 0 (S j) (String c s))
      with (String c (String.substring 0 j s)).
    change (String.substring (S j + 3) (String.length (String c s) - (S j + 3))
              (String c s))
      with (String.substring (j + 3) (String.length s - (j + 3)) s).
    rewrite append_cons. by f_equal.
Qed.

(** What [toggleTaskLine] does to any line, as a rewriting of one box. *)
Lemma toggleTaskLine_cases (line : string) :
  (exists before after,
      line = before +:+ "[ ]" +:+ after
      /\ search "[ ]" line = Some (String.length before)
      /\ toggleTaskLine line = before +:+ "[x]" +:+ after)
  \/ (exists before box after,
         search "[ ]" line = None
         /\ (box = "[x]" \/ box = "[X]")
         /\ line = before +:+ box +:+ after
         /\ searchCheckedBox line = Some (String.length before)
         /\ toggleTaskLine line = before +:+ "[ ]" +:+ after)
  \/ (search "[ ]" line = None /\ searchCheckedBox line = None
      /\ toggleTaskLine line = line).
Proof.
  unfold toggleTaskLine. destruct (search "[ ]" line) as [k|] eqn:Hk.
  - left. rewrite bool_decide_eq_true_2 by eauto.
    destruct (replace_first line "[ ]" "[x]" k Hk eq_refl)
      as (before & after & Hbefore & Hline & Hreplace).
    exists before, after. split_and!; [done | | done].
    rewrite Hbefore, length_substring_prefix; [done|].
    by apply (search_bound "[ ]").
  - rewrite bool_decide_eq_false_2 by (by intros [? ?]).
    unfold replaceCheckedBox.
    destruct (searchCheckedBox line) as [k|] eqn:Hbox.
    + right. left.
      destruct (searchCheckedBox_split line k Hbox) as (box & Hb & Hline).
      exists (String.substring 0 k line), box,
        (String.substring (k + 3) (String.length line - (k + 3)) line).
      split_and!; [done | done | exact Hline | | done].
      rewrite length_substring_prefix; [done|].
      by apply searchCheckedBox_bound.
    + right. right. done.
Qed.

End ToggleFacts.

Section ClickFacts.
Import Js Preview TextBuffer.

Lemma toggleTaskLine_length (line : string) :
  String.length (toggleTaskLine line) = String.length line.
Proof.
  destruct (toggleTaskLine_cases line)
    as [(before & after & Hline & _ & ->)
       | [(before & box & after & _ & Hbox & Hline & _ & ->)
         | (_ & _ & ->)]]; [| |done].
  - rewrite Hline. by rewrite !length_append.
  - rewrite Hline. rewrite !length_append.
    by destruct Hbox as [-> | ->].
Qed.

Lemma toggleTaskLine_lineFeed (line : string) :
  hasLineFeed (toggleTaskLine line) = hasLineFeed line.
Proof.
  destruct (toggleTaskLine_cases line)
    as [(before & after & Hline & _ & ->)
       | [(before & box & after & _ & Hbox & Hline & _ & ->)
         | (_ & _ & ->)]]; [| |done].
  - rewrite Hline. by rewrite !hasLineFeed_append.
  - rewrite Hline. rewrite !hasLineFeed_append.
    by destruct Hbox as [-> | ->].
Qed.

End ClickFacts.

(** X4. For any line, the checkbox handler rewrites exactly one box and
    nothing else: the first [[ ]] becomes [[x]]; if there is none, the
    first [[x]] or [[X]] becomes [[ ]]; if there is no box at all the text
    stays as it is. The rewritten line has the length of the original and
    no line feed the original did not have. *)
Theorem task_toggle_rewrites_one_box (line : string) :
  ((exists before after,
       line = before +:+ "[ ]" +:+ after
       /\ Js.search "[ ]" line = Some (String.length before)
       /\ Preview.toggleTaskLine line = before +:+ "[x]" +:+ after)
   \/ (exists before box after,
          Js.search "[ ]" line = None
          /\ (box = "[x]" \/ box = "[X]")
          /\ line = before +:+ box +:+ after
          /\ Js.searchCheckedBox line = Some (String.length before)
          /\ Preview.toggleTaskLine line = before +:+ "[ ]" +:+ after)
   \/ (Js.search "[ ]" line = None /\ Js.searchCheckedBox line = None
       /\ Preview.toggleTaskLine line = line))
  /\ String.length (Preview.toggleTaskLine line) = String.length line
  /\ TextBuffer.hasLineFeed (Preview.toggleTaskLine line)
     = TextBuffer.hasLineFeed line.
Proof.
  split_and!;
    [apply toggleTaskLine_cases | apply toggleTaskLine_length
     | apply toggleTaskLine_lineFeed].
Qed.

(** X5. A click on the checkbox of any existing row rewrites that row to
    its toggled text and leaves every other row of the document as it
    was; the document grows by one empty row exactly when the clicked row
    is the last one. *)
Theorem task_click_rewrites_one_row
  (v : Preview.View) (ed : Preview.TextEditor) (row : nat) (line : string) :
  Preview.editor v = Some ed ->
  Preview.buffer_lines ed !! row = Some line ->
  TextBuffer.hasLineFeed line = false ->
  let ls := Preview.buffer_lines ed in
  exists ls',
    Preview.clickTaskListCheckbox v (Z.of_nat row)
    = Js.Ok (Preview.setLines v ed ls')
    /\ ls' !! row = Some (Preview.toggleTaskLine line)
    /\ (forall j, j <> row -> (j < length ls)%nat -> ls' !! j = ls !! j)
    /\ (length ls' = length ls \/ length ls' = S (length ls))
    /\ (length ls' = S (length ls) <-> S row = length ls)
    /\ (forall j, (length ls <= j)%nat -> is_Some (ls' !! j) ->
                  ls' !! j = Some EmptyString).
Proof.
  intros Hed Hrow Hline ls.
  pose proof (lookup_lt_Some _ _ _ Hrow) as Hlt. fold ls in Hrow, Hlt.
  exists (<[row := Preview.toggleTaskLine line]> ls ++ TextBuffer.trailingRow ls row).
  assert (Htail : TextBuffer.trailingRow ls row
                  = if decide (S row = length ls) then [EmptyString] else [])
    by done.
  split_and!.
  - apply clickTaskListCheckbox_lines; [done | done |].
    by rewrite toggleTaskLine_lineFeed.
  - rewrite lookup_app_l by (by rewrite length_insert).
    by apply list_lookup_insert_eq.
  - intros j Hne Hj. rewrite lookup_app_l by (by rewrite length_insert).
    by apply list_lookup_insert_ne.
  - rewrite length_app, length_insert, Htail. case_decide; simpl; lia.
  - rewrite length_app, length_insert, Htail. case_decide; simpl; lia.
  - intros j Hj [text Htext].
    rewrite lookup_app_r in Htext |- * by (by rewrite length_insert).
    rewrite Htail in Htext |- *. case_decide; [|by rewrite lookup_nil in Htext].
    destruct (j - length (<[row:=Preview.toggleTaskLine line]> ls))%nat;
      [done | by rewrite lookup_cons, lookup_nil in Htext].
Qed.

(** X5 at the second row of a three-row document. *)
Lemma task_click_sample :
  exists ls',
    Preview.clickTaskListCheckbox
      (Samples.viewOf (Samples.editorOn ["a"; "1. [X] [ ] b"; "c"] 0 2)) 1
    = Js.Ok (Preview.setLines
               (Samples.viewOf (Samples.editorOn ["a"; "1. [X] [ ] b"; "c"] 0 2))
               (Samples.editorOn ["a"; "1. [X] [ ] b"; "c"] 0 2) ls')
    /\ ls' !! 1%nat = Some "1. [X] [x] b".
Proof.
  destruct (task_click_rewrites_one_row
              (Samples.viewOf (Samples.editorOn ["a"; "1. [X] [ ] b"; "c"] 0 2))
              (Samples.editorOn ["a"; "1. [X] [ ] b"; "c"] 0 2)
              1 "1. [X] [ ] b" eq_refl eq_refl eq_refl)
    as (ls' & Hclick & Hrow & _).
  exists ls'. split; [exact Hclick | exact Hrow].
Defined.

(** X6. The checkbox handler does nothing without an editor, and with an
    editor it raises a TypeError, leaving the document alone, when the
    row it is given does not exist (negative, or past the last row). *)
Theorem task_click_out_of_range (v : Preview.View) (dataLine : Z) :
  (Preview.editor v = None -> Preview.clickTaskListCheckbox v dataLine = Js.Ok v)
  /\ (forall ed,
        Preview.editor v = Some ed ->
        dataLine < 0 \/ Z.of_nat (length (Preview.buffer_lines ed)) <= dataLine ->
        Preview.clickTaskListCheckbox v dataLine = Js.Throw Js.TypeError)
  /\ (forall ed,
        Preview.editor v = Some ed ->
        0 <= dataLine < Z.of_nat (length (Preview.buffer_lines ed)) ->
        exists v', Preview.clickTaskListCheckbox v dataLine = Js.Ok v').
Proof.
  unfold Preview.clickTaskListCheckbox, TextBuffer.lineAt. split_and!.
  - by intros ->.
  - intros ed -> Hrange. order_case (dataLine <? 0); [done|].
    rewrite (lookup_ge_None_2 (Preview.buffer_lines ed) (Z.to_nat dataLine))
      by lia.
    done.
  - intros ed -> Hrange. order_case (dataLine <? 0).
    destruct (lookup_lt_is_Some_2 (Preview.buffer_lines ed) (Z.to_nat dataLine))
      as [line ->]; [lia|]. eauto.
Qed.

(** X6 at a click on row 7 of a four-row task list. *)
Lemma task_click_out_of_range_sample :
  Preview.clickTaskListCheckbox Samples.taskView 7 = Js.Throw Js.TypeError.
Proof.
  destruct (task_click_out_of_range Samples.taskView 7) as (_ & Hthrow & _).
  apply (Hthrow _ eq_refl). right. simpl. lia.
Defined.

(** ** More on the upload hint resolver *)

Section ResolverFacts.
Import Js Preview.

Lemma imageMarkdown_plain (description url : string) :
  Session.hasDollar description = false -> Session.hasDollar url = false ->
  Session.hasDollar (imageMarkdown description url) = false.
Proof.
  intros Hd Hu. unfold imageMarkdown.
  rewrite !hasDollar_append, Hd, Hu. reflexivity.
Qed.

Lemma imageMarkdown_lineFeed (description url : string) :
  TextBuffer.hasLineFeed description = false ->
  TextBuffer.hasLineFeed url = false ->
  TextBuffer.hasLineFeed (imageMarkdown description url) = false.
Proof.
  intros Hd Hu. unfold imageMarkdown.
  rewrite !hasLineFeed_append, Hd, Hu. reflexivity.
Qed.

Lemma indexOf_found (text pat : string) :
  0 <= indexOf text pat -> exists k, search pat text = Some k.
Proof.
  unfold indexOf. destruct (search pat text) as [k|]; simpl; [eauto | lia].
Qed.



(** A scan that reaches a row that does not exist raises. *)
Lemma scanRows_raises (n : nat) (i k : Z) (v : View) (ed : TextEditor)
  (hint withStr : string) :
  editor v = Some ed ->
  i <= k < i + Z.of_nat n ->
  (forall j, i <= j < k -> hintNotOnRow (buffer_lines ed) hint j = true) ->
  TextBuffer.lineAt (buffer_lines ed) k = None ->
  scanRows n i v hint withStr = Throw TypeError.
Proof.
  intros Hed. revert i; induction n as [|n IH]; intros i Hk Hlack Hnone; [lia|].
  simpl. destruct (decide (i = k)) as [->|Hne].
  - unfold replaceHint. by rewrite Hed, Hnone.
  - rewrite (replaceHint_lacks v ed hint withStr Hed) by (apply Hlack; lia).
    apply IH; [lia | | done]. intros j Hj. apply Hlack. lia.
Qed.


End ResolverFacts.

(** X7. When the row holds the hint and neither the description nor the
    url holds a [$] or a line feed, resolving the upload replaces exactly
    the first occurrence of the hint on that row by the image reference:
    the text before and after it is kept, and so is every other row. *)
Theorem hint_replaced_in_place
  (v : Preview.View) (ed : Preview.TextEditor) (row : nat)
  (textLine hint description url : string) :
  Preview.editor v = Some ed ->
  Preview.buffer_lines ed !! row = Some textLine ->
  0 <= Js.indexOf textLine hint ->
  TextBuffer.hasLineFeed textLine = false ->
  Session.hasDollar description = false ->
  Session.hasDollar url = false ->
  TextBuffer.hasLineFeed description = false ->
  TextBuffer.hasLineFeed url = false ->
  exists before after,
    textLine = before +:+ hint +:+ after
    /\ Js.search hint textLine = Some (String.length before)
    /\ Preview.replaceHint v (Z.of_nat row) hint
         (Preview.imageMarkdown description url)
       = Js.Ok (true,
                Preview.setLines v ed
                  (<[row := before +:+ Preview.imageMarkdown description url
                              +:+ after]> (Preview.buffer_lines ed))).
Proof.
  intros Hed Hrow Hfound Htext Hd Hu Hdl Hul.
  destruct (indexOf_found _ _ Hfound) as [k Hk].
  destruct (replace_first textLine hint (Preview.imageMarkdown description url)
              k Hk (imageMarkdown_plain _ _ Hd Hu))
    as (before & after & Hbefore & Hsplit & Hreplace).
  exists before, after. split_and!.
  - exact Hsplit.
  - rewrite Hk, Hbefore, length_substring_prefix; [done|].
    by apply (search_bound hint).
  - rewrite (replaceHint_holds v ed hint _ Hed (Z.of_nat row) textLine)
      by (by rewrite ?lineAt_nat).
    do 3 f_equal. unfold Preview.hintReplaced. rewrite Hreplace.
    apply setTextInRange_row; [done|].
    rewrite Hsplit, !hasLineFeed_append in Htext.
    apply orb_false_iff in Htext as [Hb Htext].
    apply orb_false_iff in Htext as [_ Ha].
    by rewrite !hasLineFeed_append, Hb, Ha, imageMarkdown_lineFeed.
Qed.

(** X7 at a three-row document with the hint in the middle of row 1. *)
Lemma hint_replaced_sample :
  exists before after,
    "a " +:+ Samples.hint +:+ " b" = before +:+ Samples.hint +:+ after
    /\ Preview.replaceHint
         (Samples.viewOf
            (Samples.editorOn ["intro"; "a " +:+ Samples.hint +:+ " b"; "outro"] 0 2))
         1 Samples.hint (Preview.imageMarkdown "p" "https://i.example/p.png")
       = Js.Ok (true,
                Preview.setLines
                  (Samples.viewOf
                     (Samples.editorOn
                        ["intro"; "a " +:+ Samples.hint +:+ " b"; "outro"] 0 2))
                  (Samples.editorOn
                     ["intro"; "a " +:+ Samples.hint +:+ " b"; "outro"] 0 2)
                  (<[1%nat := before
                                +:+ Preview.imageMarkdown "p" "https://i.example/p.png"
                                +:+ after]>
                     ["intro"; "a " +:+ Samples.hint +:+ " b"; "outro"])).
Proof.
  destruct (hint_replaced_in_place
              (Samples.viewOf
                 (Samples.editorOn ["intro"; "a " +:+ Samples.hint +:+ " b"; "outro"] 0 2))
              (Samples.editorOn ["intro"; "a " +:+ Samples.hint +:+ " b"; "outro"] 0 2)
              1 ("a " +:+ Samples.hint +:+ " b") Samples.hint "p"
              "https://i.example/p.png"
              eq_refl eq_refl ltac:(apply Z.leb_le; reflexivity)
              eq_refl eq_refl eq_refl eq_refl eq_refl)
    as (before & after & Hsplit & _ & H).
  exists before, after. split; [exact Hsplit | exact H].
Defined.



(** X9. With an editor bound and the hint gone from the insertion row,
    the fallback scan raises a TypeError as soon as it reaches a row that
    does not exist before it reaches the hint, and the error is shown as a
    notification while the document keeps the hint. In particular this
    happens whenever the insertion row is one of the first twenty rows,
    and whenever the insertion row itself no longer exists. *)
Theorem upload_scan_raises_outside_document
  (v : Preview.View) (ed : Preview.TextEditor)
  (imageFileName url hint : string) (bufferRow : Z) :
  Preview.editor v = Some ed ->
  let ls := Preview.buffer_lines ed in
  let raises :=
    Preview.setUploadedImageURL v imageFileName url hint bufferRow
    = Js.Throw Js.TypeError
    /\ Preview.uploadImageFile_settled v imageFileName hint bufferRow
         (Preview.Resolved url) = (v, [Preview.addError Js.TypeError]) in
  (forall k,
      Preview.hintNotOnRow ls hint bufferRow = true ->
      bufferRow - 20 <= k <= bufferRow + 20 ->
      (forall j, bufferRow - 20 <= j < k ->
                 Preview.hintNotOnRow ls hint j = true) ->
      TextBuffer.lineAt ls k = None ->
      raises)
  /\ (Preview.hintNotOnRow ls hint bufferRow = true -> bufferRow < 20 -> raises)
  /\ (TextBuffer.lineAt ls bufferRow = None -> raises).
Proof.
  intros Hed ls raises.
  assert (Hsettle :
    Preview.setUploadedImageURL v imageFileName url hint bufferRow
    = Js.Throw Js.TypeError -> raises).
  { intros H. split; [done|]. unfold Preview.uploadImageFile_settled.
    by rewrite H. }
  assert (Hscan : forall k,
    Preview.hintNotOnRow ls hint bufferRow = true ->
    bufferRow - 20 <= k <= bufferRow + 20 ->
    (forall j, bufferRow - 20 <= j < k ->
               Preview.hintNotOnRow ls hint j = true) ->
    TextBuffer.lineAt ls k = None -> raises).
  { intros k Hlacks Hk Hbefore Hnone. apply Hsettle.
    unfold Preview.setUploadedImageURL.
    rewrite (replaceHint_lacks v ed hint _ Hed bufferRow Hlacks).
    replace (Z.to_nat (bufferRow + 20 - (bufferRow - 20) + 1)) with 41%nat
      by lia.
    apply (scanRows_raises 41 (bufferRow - 20) k v ed); try done. lia. }
  split_and!.
  - exact Hscan.
  - intros Hlacks Hsmall. apply (Hscan (bufferRow - 20)); [done | lia | lia |].
    unfold TextBuffer.lineAt. by order_case (bufferRow - 20 <? 0).
  - intros Hnone. apply Hsettle.
    unfold Preview.setUploadedImageURL, Preview.replaceHint.
    rewrite Hed. fold ls. by rewrite Hnone.
Qed.

(** X9 at the three-row document whose hint moved from row 0 to row 1. *)
Lemma upload_scan_raises_sample :
  Preview.setUploadedImageURL Samples.shortView "p.png"
    "https://i.example/p.png" Samples.hint 0 = Js.Throw Js.TypeError
  /\ Preview.uploadImageFile_settled Samples.shortView "p.png" Samples.hint 0
       (Preview.Resolved "https://i.example/p.png")
     = (Samples.shortView, [Preview.addError Js.TypeError]).
Proof.
  destruct (upload_scan_raises_outside_document Samples.shortView
              (Samples.editorOn ["intro"; Samples.hint; "outro"] 0 2)
              "p.png" "https://i.example/p.png" Samples.hint 0 eq_refl)
    as (_ & Hsmall & _).
  apply Hsmall; [reflexivity | lia].
Defined.

(** ** More on the render decision *)

(** X10. With an editor bound and the preview not in presentation mode, a
    resolved render whose front matter sets the presentation flag always
    reloads the preview and stores the new dependency list, whatever the
    comparison says. Without the flag, and for any comparison that finds
    a list equal to itself, the render that follows when the preview has
    finished loading (the same parse result again) is a plain patch that
    leaves the session as the first render left it: a reload is never
    followed by a second reload. *)
Theorem render_settles_after_reload
  (equal : list string -> list string -> bool)
  (v : Preview.View) (ed : Preview.TextEditor) (r : Preview.ParseResult) :
  Preview.editor v = Some ed ->
  Preview.isPreviewInPresentationMode v = false ->
  let patch :=
    [Preview.postMessage Preview.startParsingMarkdown;
     Preview.postMessage
       (Preview.updateHTML (Preview.html r) (Preview.tocHTML r)
          (Preview.getLineCount ed) (Preview.getPath ed)
          (Js.or (Preview.yaml_id (Preview.yamlConfig r)) (Js.Str ""))
          (Js.or (Preview.yaml_class (Preview.yamlConfig r)) (Js.Str "")))] in
  let first := Preview.renderMarkdown equal v (Preview.Resolved r) in
  (Js.truthy (Preview.isPresentationMode (Preview.yamlConfig r)) = true ->
   first = (Preview.withJSAndCssFiles v (Preview.parsed_JSAndCssFiles r),
            [Preview.postMessage Preview.startParsingMarkdown;
             Preview.loadPreview]))
  /\ ((forall l, equal l l = true) ->
      Js.truthy (Preview.isPresentationMode (Preview.yamlConfig r)) = false ->
      Session.webviewStopLoading equal first.1 (Preview.Resolved r)
      = (first.1, patch)
      /\ Preview.renderMarkdown equal first.1 (Preview.Resolved r)
         = (first.1, patch)).
Proof.
  intros Hed Hmode patch first. split.
  - intros Hflag. unfold first, Preview.renderMarkdown, Preview.renderMarkdown_then.
    rewrite Hed, Hmode, Hflag. by rewrite orb_true_r.
  - intros Hrefl Hflag.
    assert (Hagain :
      Preview.renderMarkdown equal first.1 (Preview.Resolved r) = (first.1, patch)).
    { destruct (equal (Preview.parsed_JSAndCssFiles r) (Preview.JSAndCssFiles v))
        eqn:Hequal.
      - assert (Hfirst : first = (v, patch))
          by (by apply renderMarkdown_patches).
        rewrite Hfirst. simpl. by apply renderMarkdown_patches.
      - assert (Hfirst :
          first = (Preview.withJSAndCssFiles v (Preview.parsed_JSAndCssFiles r),
                   [Preview.postMessage Preview.startParsingMarkdown;
                    Preview.loadPreview]))
          by (by apply (renderMarkdown_reloads equal v ed)).
        rewrite Hfirst. simpl.
        apply (renderMarkdown_patches equal _ ed); try done; apply Hrefl. }
    split; [|done]. unfold Session.webviewStopLoading.
    assert (Hmode' : Preview.isPreviewInPresentationMode first.1 = false).
    { unfold first, Preview.renderMarkdown, Preview.renderMarkdown_then.
      rewrite Hed, Hmode.
      by destruct (negb _ || _). }
    by rewrite Hmode'.
Qed.

Lemma sameList_reflexive (l : list string) : Cases.sameList l l = true.
Proof. by apply bool_decide_eq_true. Qed.

(** X10 at a render that brings a new dependency. *)
Lemma render_settles_sample :
  let r := {| Preview.html := "<p>hi</p>";
              Preview.tocHTML := "";
              Preview.parsed_JSAndCssFiles := ["style.css"; "plot.js"];
              Preview.yamlConfig :=
                {| Preview.isPresentationMode := Js.Undefined;
                   Preview.yaml_id := Js.Undefined;
                   Preview.yaml_class := Js.Undefined |} |} in
  let first :=
    Preview.renderMarkdown Cases.sameList Samples.topOfLongDocument
      (Preview.Resolved r) in
  first.2 = [Preview.postMessage Preview.startParsingMarkdown; Preview.loadPreview]
  /\ (Session.webviewStopLoading Cases.sameList first.1 (Preview.Resolved r)).2
     = [Preview.postMessage Preview.startParsingMarkdown;
        Preview.postMessage
          (Preview.updateHTML "<p>hi</p>" "" 50 "/home/user/notes.md"
             (Js.Str "") (Js.Str ""))].
Proof.
  intros r first. split; [reflexivity|].
  destruct (render_settles_after_reload Cases.sameList
              Samples.topOfLongDocument
              (Samples.editorOn Samples.longDocument 0 20) r eq_refl eq_refl)
    as [_ Hsettle].
  destruct (Hsettle sameList_reflexive eq_refl) as [Hstop _].
  fold first in Hstop. by rewrite Hstop.
Defined.

(** ** The workspace directory of the editor *)

(** X11. [getProjectDirectoryPath] returns the empty string without an
    editor; with one, it returns the path of the first project directory
    that contains the editor's file, and the empty string when no project
    directory contains it. *)
Theorem project_directory_is_first_containing
  (v : Preview.View) (projectDirectories : list Session.Directory) :
  (Preview.editor v = None ->
   Session.getProjectDirectoryPath v projectDirectories = "")
  /\ (forall ed i projectDirectory,
        Preview.editor v = Some ed ->
        projectDirectories !! i = Some projectDirectory ->
        Session.contains projectDirectory (Preview.getPath ed) = true ->
        (forall j other, (j < i)%nat -> projectDirectories !! j = Some other ->
                         Session.contains other (Preview.getPath ed) = false) ->
        Session.getProjectDirectoryPath v projectDirectories
        = Session.directoryPath projectDirectory)
  /\ (forall ed,
        Preview.editor v = Some ed ->
        (forall j other, projectDirectories !! j = Some other ->
                         Session.contains other (Preview.getPath ed) = false) ->
        Session.getProjectDirectoryPath v projectDirectories = "").
Proof.
  unfold Session.getProjectDirectoryPath. split_and!.
  - by intros ->.
  - intros ed i projectDirectory -> Hi Hcontains Hfirst.
    revert i Hi Hfirst.
    induction projectDirectories as [|d rest IH]; intros i Hi Hfirst; [done|].
    destruct i as [|i]; simpl in *.
    + inversion Hi; subst d. by rewrite Hcontains.
    + rewrite (Hfirst 0%nat d) by (done || lia).
      apply (IH i Hi). intros j other Hj Hother.
      apply (Hfirst (S j) other); [lia | done].
  - intros ed -> Hnone.
    induction projectDirectories as [|d rest IH]; [done|]. simpl.
    rewrite (Hnone 0%nat d) by done.
    apply IH. intros j other Hother. by apply (Hnone (S j) other).
Qed.

(** ** More on the scroll animation *)

Section DeadlineFacts.
Import ScrollAnimation AnimationClock.
Context {P : Pixels}.

(** Each expiry of the pending timer moves the deadline to 500 past the
    clock reading. *)
Lemma tick_deadline (st : State) (t : Timer) (now : Z) :
  timers st = [t] -> editorScrollDelay (tick st now) = now + 500.
Proof.
  intros Ht. rewrite (tick_pending st t now Ht). unfold callback.
  destruct (duration t <=? 0); [done|].
  by destruct (looseEq _ _).
Qed.

Lemma request_deadline (st : State) (row now : Z) :
  editorBound st = true -> 0 <= row ->
  editorScrollDelay (scrollToBufferPosition st row now) = now + 500.
Proof.
  intros Hbound Hrow. unfold scrollToBufferPosition. rewrite Hbound. simpl.
  by order_case (row <? 0).
Qed.

(** An event leaves the deadline alone or moves it to 500 past its own
    clock reading. *)
Lemma step_deadline (st : State) (e : Event) :
  editorScrollDelay (step st e) = editorScrollDelay st
  \/ editorScrollDelay (step st e) = eventTime e + 500.
Proof.
  destruct e as [row now | h now]; simpl.
  - unfold scrollToBufferPosition.
    destruct (editorBound st); simpl; [|by left].
    destruct (row <? 0); [by left | by right].
  - unfold fire.
    destruct (list_find _ _) as [[i t]|]; [|by left].
    right. unfold callback. destruct (duration t <=? 0); [done|].
    by destruct (looseEq _ _).
Qed.

Lemma run_app (st : State) (events later : list Event) :
  run st (events ++ later) = run (run st events) later.
Proof. apply foldl_app. Qed.

Lemma run_deadline_origin (st : State) (events : list Event) :
  editorScrollDelay (run st events) = editorScrollDelay st
  \/ exists e, In e events
               /\ editorScrollDelay (run st events) = eventTime e + 500.
Proof.
  revert st; induction events as [|e events IH]; intros st; [by left|].
  simpl. destruct (IH (step st e)) as [Hsame | (e' & Hin & He')].
  - rewrite Hsame. destruct (step_deadline st e) as [-> | ->]; [by left|].
    right. exists e. split; [by left | done].
  - right. exists e'. split; [by right | done].
Qed.

Lemma run_deadline_grows (st : State) (events : list Event) :
  StronglySorted Z.le (eventTime <$> events) ->
  (forall e, In e events -> editorScrollDelay st <= eventTime e + 500) ->
  editorScrollDelay st <= editorScrollDelay (run st events).
Proof.
  revert st; induction events as [|e events IH]; intros st Hsorted Hfirst;
    [simpl; lia|].
  simpl. rewrite fmap_cons in Hsorted.
  apply StronglySorted_inv in Hsorted as [Hsorted Hall].
  assert (Hstep : editorScrollDelay st <= editorScrollDelay (step st e)).
  { destruct (step_deadline st e) as [-> | ->]; [lia|]. apply Hfirst. by left. }
  etrans; [exact Hstep|]. apply IH; [done|].
  intros e' He'. destruct (step_deadline st e) as [-> | ->].
  - apply Hfirst. by right.
  - rewrite List.Forall_forall in Hall.
    specialize (Hall (eventTime e')). 
    assert (eventTime e <= eventTime e'); [|lia].
    apply Hall. apply in_map_iff. eauto.
Qed.


End DeadlineFacts.

(** X12. After every step of the animation (an accepted reveal request,
    or an expiry of its timer at clock reading [now]) the scroll handler
    and the cursor handler of a session with that suppression deadline
    stay silent at every clock reading before [now + 500]. *)
Theorem animation_step_silences_sync `{P : ScrollAnimation.Pixels}
  (st : ScrollAnimation.State) (v : Preview.View) (now later : Z)
  (event : Preview.CursorEvent) :
  later < now + 500 ->
  let silentAfter (st' : ScrollAnimation.State) :=
    Preview.editorScrollDelay v = ScrollAnimation.editorScrollDelay st' ->
    Session.onDidChangeScrollTop v later = []
    /\ Preview.onDidChangeCursorPosition v later event = Js.Ok [] in
  (forall t, ScrollAnimation.timers st = [t] ->
             silentAfter (ScrollAnimation.tick st now))
  /\ (forall row, ScrollAnimation.editorBound st = true -> 0 <= row ->
                  silentAfter (ScrollAnimation.scrollToBufferPosition st row now)).
Proof.
  intros Hlater silentAfter.
  assert (Hsilent : forall st',
    ScrollAnimation.editorScrollDelay st' = now + 500 -> silentAfter st').
  { intros st' Hdeadline Hv.
    unfold Session.onDidChangeScrollTop, Preview.onDidChangeCursorPosition.
    rewrite Hv, Hdeadline.
    replace (later <? now + 500) with true by (symmetry; by apply Z.ltb_lt).
    by destruct (negb (Preview.scrollSync v)). }
  split.
  - intros t Ht. apply Hsilent. by apply (tick_deadline st t).
  - intros row Hbound Hrow. apply Hsilent. by apply request_deadline.
Qed.

(** X12 at a cursor move 300 clock units after a reveal request. *)
Lemma animation_step_silences_sample :
  Session.onDidChangeScrollTop
    (Preview.withEditor
       {| Preview.editor := None; Preview.scrollSync := true;
          Preview.imageFolderPath := "/assets";
          Preview.isPreviewInPresentationMode := false;
          Preview.JSAndCssFiles := []; Preview.editorScrollDelay := 1500;
          Preview.zoomLevel := Js.Number (Js.Fin 1) |}
       (Some (Samples.editorOn Samples.longDocument 10 31)))
    1300 = [].
Proof.
  destruct (animation_step_silences_sync Samples.atRest
              (Preview.withEditor
                 {| Preview.editor := None; Preview.scrollSync := true;
                    Preview.imageFolderPath := "/assets";
                    Preview.isPreviewInPresentationMode := false;
                    Preview.JSAndCssFiles := []; Preview.editorScrollDelay := 1500;
                    Preview.zoomLevel := Js.Number (Js.Fin 1) |}
                 (Some (Samples.editorOn Samples.longDocument 10 31)))
              1000 1300
              {| Preview.newScreenPosition_row := 12;
                 Preview.newBufferPosition_row := 12 |}
              ltac:(lia)) as [_ Hrequest].
  destruct (Hrequest 10 eq_refl ltac:(lia) eq_refl) as [Hscroll _].
  exact Hscroll.
Defined.

(** X13. In a run whose clock readings never decrease, the suppression
    deadline never moves back: after more events it is at least what it
    was, provided the deadline the run starts from is at most 500 past
    each clock reading of the run. *)
Theorem deadline_never_moves_back `{P : ScrollAnimation.Pixels}
  (st : ScrollAnimation.State) (events later : list ScrollAnimation.Event) :
  StronglySorted Z.le (AnimationClock.eventTime <$> (events ++ later)) ->
  (forall e, In e (events ++ later) ->
             ScrollAnimation.editorScrollDelay st
             <= AnimationClock.eventTime e + 500) ->
  ScrollAnimation.editorScrollDelay (ScrollAnimation.run st events)
  <= ScrollAnimation.editorScrollDelay (ScrollAnimation.run st (events ++ later)).
Proof.
  intros Hsorted Hstart. rewrite run_app.
  rewrite fmap_app in Hsorted.
  apply run_deadline_grows.
  - clear Hstart. induction (AnimationClock.eventTime <$> events) as [|x xs IH];
      [done|].
    simpl in Hsorted. apply StronglySorted_inv in Hsorted as [Hsorted _].
    by apply IH.
  - intros e He.
    destruct (run_deadline_origin st events) as [-> | (e0 & Hin & ->)].
    + apply Hstart. apply in_or_app. by right.
    + assert (AnimationClock.eventTime e0 <= AnimationClock.eventTime e); [|lia].
      clear Hstart. revert Hsorted Hin.
      induction events as [|x events IH]; intros Hsorted Hin; [done|].
      rewrite fmap_cons in Hsorted. simpl in Hsorted.
      apply StronglySorted_inv in Hsorted as [Hsorted Hall].
      destruct Hin as [-> | Hin]; [|by apply IH].
      rewrite List.Forall_forall in Hall. apply Hall.
      apply in_or_app. right. apply in_map_iff. eauto.
Qed.

(** X13 at a reveal request followed by two expiries. *)
Lemma deadline_never_moves_back_sample :
  ScrollAnimation.editorScrollDelay
    (ScrollAnimation.run Samples.atRest [ScrollAnimation.reveal 10 1000])
  <= ScrollAnimation.editorScrollDelay
       (ScrollAnimation.run Samples.atRest
          ([ScrollAnimation.reveal 10 1000]
             ++ [ScrollAnimation.expire 1%positive 1010;
                 ScrollAnimation.expire 2%positive 1020])).
Proof.
  apply (deadline_never_moves_back Samples.atRest).
  - simpl. repeat constructor; lia.
  - intros e He. simpl in He.
    destruct He as [<- | [<- | [<- | []]]]; simpl; lia.
Defined.




(** X11 at a file under the second of three project directories. *)
Lemma project_directory_sample :
  Session.getProjectDirectoryPath Samples.topOfLongDocument Cases.workspace
  = "/home/user".
Proof.
  destruct (project_directory_is_first_containing Samples.topOfLongDocument
              Cases.workspace) as (_ & Hfirst & _).
  apply (Hfirst (Samples.editorOn Samples.longDocument 0 20) 1%nat
           (Cases.directoryAt "/home/user") eq_refl eq_refl eq_refl).
  intros j other Hj Hother. destruct j as [|j]; [|lia].
  inversion Hother. reflexivity.
Defined.

(** ** The table of preview files *)

Section FileFacts.
Import HtmlFiles.
Variable tempOpen : nat -> string.

Lemma loads_cons (f : Files) (path : string) (rest : list string) :
  loads tempOpen f (path :: rest)
  = ((htmlFileFor tempOpen f path).1
       :: (loads tempOpen (htmlFileFor tempOpen f path).2 rest).1,
     (loads tempOpen (htmlFileFor tempOpen f path).2 rest).2).
Proof.
  simpl. destruct (htmlFileFor tempOpen f path) as [file f']. simpl.
  by destruct (loads tempOpen f' rest).
Qed.

(** After a load the path is in the table, bound to the file the load
    used. *)
Lemma htmlFileFor_has (f : Files) (path : string) :
  hasProperty (HTML_FILES_MAP (htmlFileFor tempOpen f path).2) path = true
  /\ getProperty (HTML_FILES_MAP (htmlFileFor tempOpen f path).2) path
     = (htmlFileFor tempOpen f path).1.
Proof.
  unfold htmlFileFor.
  destruct (hasProperty (HTML_FILES_MAP f) path) eqn:E; simpl; [done|].
  unfold hasProperty, getProperty. rewrite lookup_insert_eq. split; [|done].
  apply orb_true_iff. left. by apply bool_decide_eq_true.
Qed.

Lemma htmlFileFor_keeps (f : Files) (path key : string) :
  hasProperty (HTML_FILES_MAP f) key = true ->
  hasProperty (HTML_FILES_MAP (htmlFileFor tempOpen f path).2) key = true
  /\ getProperty (HTML_FILES_MAP (htmlFileFor tempOpen f path).2) key
     = getProperty (HTML_FILES_MAP f) key.
Proof.
  intros Hkey. unfold htmlFileFor.
  destruct (hasProperty (HTML_FILES_MAP f) path) eqn:E; simpl; [done|].
  assert (path <> key) by (intros ->; congruence).
  unfold hasProperty, getProperty in *. by rewrite lookup_insert_ne.
Qed.

(** Once a path is in the table, every later load of it uses the stored
    file. *)
Lemma loads_reuse (f : Files) (paths : list string) (key : string) (j : nat) :
  hasProperty (HTML_FILES_MAP f) key = true ->
  paths !! j = Some key ->
  (loads tempOpen f paths).1 !! j = Some (getProperty (HTML_FILES_MAP f) key).
Proof.
  revert f j; induction paths as [|path rest IH]; intros f j Hkey Hj; [done|].
  rewrite loads_cons. simpl.
  destruct (htmlFileFor_keeps f path key Hkey) as [Hhas Hget].
  destruct j as [|j]; simpl in *.
  - inversion Hj; subst path. unfold htmlFileFor. by rewrite Hkey.
  - rewrite (IH _ j Hhas Hj). by rewrite Hget.
Qed.

Lemma htmlFileFor_counts (f : Files) (path : string) :
  opened f = size (HTML_FILES_MAP f) ->
  opened (htmlFileFor tempOpen f path).2
  = size (HTML_FILES_MAP (htmlFileFor tempOpen f path).2).
Proof.
  intros Hf. unfold htmlFileFor.
  destruct (hasProperty (HTML_FILES_MAP f) path) eqn:E; simpl; [done|].
  apply orb_false_iff in E as [E _]. apply bool_decide_eq_false in E.
  rewrite map_size_insert_None, Hf; [done|].
  destruct (HTML_FILES_MAP f !! path) eqn:El; [|done]. exfalso. apply E. eauto.
Qed.

Lemma loads_counts (f : Files) (paths : list string) :
  opened f = size (HTML_FILES_MAP f) ->
  opened (loads tempOpen f paths).2
  = size (HTML_FILES_MAP (loads tempOpen f paths).2)
  /\ (opened (loads tempOpen f paths).2 <= opened f + length paths)%nat.
Proof.
  revert f; induction paths as [|path rest IH]; intros f Hf; [simpl; lia|].
  rewrite loads_cons. simpl.
  destruct (IH _ (htmlFileFor_counts f path Hf)) as [Hsize Hbound].
  split; [done|].
  assert (opened (htmlFileFor tempOpen f path).2 <= S (opened f))%nat; [|lia].
  unfold htmlFileFor.
  destruct (hasProperty (HTML_FILES_MAP f) path); simpl; lia.
Qed.

(** A first load of a document path creates a file. *)
Lemma htmlFileFor_miss (f : Files) (path : string) :
  HTML_FILES_MAP f !! path = None ->
  path ∉ EngineCache.objectPrototypeKeys ->
  htmlFileFor tempOpen f path
  = (fileSlot (tempOpen (opened f)),
     {| HTML_FILES_MAP := <[path := tempOpen (opened f)]> (HTML_FILES_MAP f);
        opened := S (opened f) |}).
Proof.
  intros Hnone Hpath. unfold htmlFileFor.
  replace (hasProperty (HTML_FILES_MAP f) path) with false; [done|].
  symmetry. unfold hasProperty. rewrite Hnone. apply orb_false_iff. split.
  - apply bool_decide_eq_false. by intros [? ?].
  - by apply bool_decide_eq_false.
Qed.

End FileFacts.

(** X15. In any run of preview loads that follow one another, from any
    sessions, two loads of the same editor path use the same preview file; the number of temporary
    files created equals the number of paths in the table and is at most
    the number of loads; and the very first load of the process, when it
    is for a document path, creates the first temporary file. *)
Theorem preview_file_created_once
  (tempOpen : nat -> string) (paths : list string) :
  let files := (HtmlFiles.loads tempOpen HtmlFiles.start paths).1 in
  let final := (HtmlFiles.loads tempOpen HtmlFiles.start paths).2 in
  (forall i j path,
      (i < j)%nat -> paths !! i = Some path -> paths !! j = Some path ->
      exists file, files !! i = Some file /\ files !! j = Some file)
  /\ HtmlFiles.opened final = size (HtmlFiles.HTML_FILES_MAP final)
  /\ (HtmlFiles.opened final <= length paths)%nat
  /\ (forall path,
        paths !! 0%nat = Some path ->
        path ∉ EngineCache.objectPrototypeKeys ->
        files !! 0%nat = Some (HtmlFiles.fileSlot (tempOpen 0%nat))).
Proof.
  intros files final. split_and!.
  - unfold files. generalize HtmlFiles.start.
    induction paths as [|first rest IH]; intros f i j path Hij Hi Hj; [done|].
    rewrite loads_cons. simpl. destruct j as [|j]; [lia|].
    destruct i as [|i]; simpl in *.
    + inversion Hi; subst first.
      destruct (htmlFileFor_has tempOpen f path) as [Hhas Hget].
      exists (HtmlFiles.htmlFileFor tempOpen f path).1. split; [done|].
      rewrite (loads_reuse tempOpen _ rest path j Hhas Hj). by rewrite Hget.
    + apply (IH _ i j path); [lia | done | done].
  - by apply loads_counts.
  - by apply (loads_counts tempOpen HtmlFiles.start paths).
  - intros path Hpath Hdoc. unfold files.
    destruct paths as [|first rest]; [done|]. inversion Hpath; subst first.
    rewrite loads_cons. simpl. by rewrite htmlFileFor_miss.
Qed.

(** X15 at three loads of two documents. *)
Lemma preview_file_sample :
  exists file,
    (HtmlFiles.loads Cases.numbered HtmlFiles.start Cases.loadedPaths).1 !! 0%nat
    = Some file
    /\ (HtmlFiles.loads Cases.numbered HtmlFiles.start Cases.loadedPaths).1 !! 2%nat
       = Some file.
Proof.
  destruct (preview_file_created_once Cases.numbered Cases.loadedPaths)
    as (Hsame & _).
  apply (Hsame 0%nat 2%nat "/home/user/notes.md"); [lia | reflexivity | reflexivity].
Defined.

(** ** More on the engine table *)

Section EngineOwnerFacts.
Import EngineCache.

(** The first lookup of a document path in a run constructs the engine
    from that path and the project directory of the session that asks. *)
Lemma binds_first (requests : list (string * string)) (i : nat)
  (path dir : string) :
  path ∉ objectPrototypeKeys ->
  requests !! i = Some (path, dir) ->
  (forall j dir', (j < i)%nat -> requests !! j <> Some (path, dir')) ->
  exists n,
    (binds start requests).1 !! i
    = Some {| engine := engineSlot {| ref := n; filePath := path;
                                      projectDirectoryPath := dir |};
              constructs := true |}.
Proof.
  intros Hpath Hi Hfirst.
  destruct (binds_at start requests i path dir Hi) as [Hout _].
  set (before := (binds start (take i requests)).2) in *.
  assert (Hnone : MARKDOWN_ENGINES_MAP before !! path = None).
  { apply binds_untouched; [done|]. intros k dir' Hk.
    pose proof (lookup_lt_Some _ _ _ Hk) as Hlt. rewrite length_take in Hlt.
    rewrite lookup_take_lt in Hk by lia. apply (Hfirst k dir'); [lia | done]. }
  exists (length (constructed before)). rewrite Hout. f_equal.
  unfold initEngine.
  replace (hasProperty (MARKDOWN_ENGINES_MAP before) path) with false; [done|].
  symmetry. unfold hasProperty. rewrite Hnone. apply orb_false_iff. split.
  - apply bool_decide_eq_false. by intros [? ?].
  - by apply bool_decide_eq_false.
Qed.

(** A later lookup of the same path returns what the earlier one did. *)
Lemma binds_later (requests : list (string * string)) (i j : nat)
  (path dir dir' : string) :
  (i < j)%nat ->
  requests !! i = Some (path, dir) ->
  requests !! j = Some (path, dir') ->
  engine <$> (binds start requests).1 !! j
  = engine <$> (binds start requests).1 !! i.
Proof.
  intros Hij Hi Hj.
  destruct (binds_at start requests i path dir Hi) as [Hout _].
  destruct (binds_at start requests j path dir' Hj) as [Hout' _].
  assert (Hi' : take j requests !! i = Some (path, dir))
    by (by rewrite lookup_take_lt).
  destruct (binds_at start (take j requests) i path dir Hi') as [_ Hbefore].
  rewrite take_take, Nat.min_l in Hbefore by lia.
  set (before := (binds start (take i requests)).2) in *.
  destruct (initEngine_has before path dir) as [Hhas Hget].
  destruct (binds_keeps _ (drop (S i) (take j requests)) path Hhas)
    as [Hhas' Hget'].
  rewrite <- Hbefore in Hhas', Hget'.
  rewrite Hout, Hout', (initEngine_hit _ path dir' Hhas'). simpl.
  by rewrite Hget', Hget.
Qed.

End EngineOwnerFacts.

(** X16. In any run of editor binds, every lookup of a document path
    yields an engine that was constructed for that very path, with the
    project directory of the session that bound the path first: sessions
    that bind it later, whatever their own project directory, get that
    engine. Engines of different documents are therefore different
    objects. *)
Theorem engine_belongs_to_its_document
  (requests : list (string * string)) (path dir : string) (i : nat) :
  path ∉ EngineCache.objectPrototypeKeys ->
  requests !! i = Some (path, dir) ->
  (forall j dir', (j < i)%nat -> requests !! j <> Some (path, dir')) ->
  let outs := (EngineCache.binds EngineCache.start requests).1 in
  forall j dir',
    requests !! j = Some (path, dir') ->
    exists e,
      EngineCache.engine <$> outs !! j = Some (EngineCache.engineSlot e)
      /\ EngineCache.filePath e = path
      /\ EngineCache.projectDirectoryPath e = dir.
Proof.
  intros Hpath Hi Hfirst outs j dir' Hj.
  destruct (binds_first requests i path dir Hpath Hi Hfirst) as [n Hout].
  exists {| EngineCache.ref := n; EngineCache.filePath := path;
            EngineCache.projectDirectoryPath := dir |}.
  split; [|done]. unfold outs.
  destruct (Nat.lt_trichotomy i j) as [Hlt | [<- | Hgt]].
  - rewrite (binds_later requests i j path dir dir' Hlt Hi Hj). by rewrite Hout.
  - by rewrite Hout.
  - exfalso. by apply (Hfirst j dir').
Qed.

(** X16 at the bind of a second session with no project directory. *)
Lemma engine_belongs_sample :
  exists e,
    EngineCache.engine
      <$> (EngineCache.binds EngineCache.start Samples.bindRequests).1 !! 3%nat
    = Some (EngineCache.engineSlot e)
    /\ EngineCache.filePath e = "/home/user/notes.md"
    /\ EngineCache.projectDirectoryPath e = "/home/user".
Proof.
  apply (engine_belongs_to_its_document Samples.bindRequests
           "/home/user/notes.md" "/home/user" 0%nat
           ltac:(rewrite list_elem_of_In; simpl; intuition discriminate)
           eq_refl ltac:(intros; lia) 3%nat "" eq_refl).
Defined.

(** ** The scroll handler *)

(** X17. The scroll handler posts nothing when scroll sync is off, when
    the suppression deadline has not passed, or when no editor is bound;
    otherwise it posts exactly one message, and the ratio it carries is
    0, 1/2 or 1, hence always within [0,1]. *)
Theorem scroll_handler_ratio_is_bounded (v : Preview.View) (now : Z) :
  let effects := Session.onDidChangeScrollTop v now in
  (Preview.scrollSync v = false \/ now < Preview.editorScrollDelay v
   \/ Preview.editor v = None ->
   effects = [])
  /\ (Preview.scrollSync v = true -> Preview.editorScrollDelay v <= now ->
      is_Some (Preview.editor v) ->
      exists line ratio,
        effects
        = [Preview.postMessage (Preview.changeTextEditorSelection line ratio)]
        /\ (ratio = Js.Fin 0 \/ ratio = Js.Fin (1 # 2) \/ ratio = Js.Fin 1)
        /\ Js.inUnitInterval ratio).
Proof.
  intros effects. unfold effects, Session.onDidChangeScrollTop. split.
  - intros [-> | [Hearly | Hnone]]; [done | |].
    + destruct (negb (Preview.scrollSync v)); [done|].
      by order_case (now <? Preview.editorScrollDelay v).
    + destruct (negb (Preview.scrollSync v)); [done|].
      destruct (now <? Preview.editorScrollDelay v); [done|].
      unfold Preview.syncPreview. by rewrite Hnone.
  - intros -> Hlate [ed Hed]. simpl.
    order_case (now <? Preview.editorScrollDelay v).
    unfold Preview.syncPreview. rewrite Hed.
    destruct (Preview.getFirstVisibleScreenRow ed =? 0);
      [|destruct (Preview.getLastVisibleScreenRow ed =? Preview.getLastScreenRow ed)];
      eexists _, _; (split; [reflexivity|]); (split; [eauto|]);
      simpl; unfold Qle; simpl; lia.
Qed.

(** X17 at a scroll of a view that shows rows 10 to 31. *)
Lemma scroll_handler_sample :
  exists line ratio,
    Session.onDidChangeScrollTop
      (Samples.viewOf (Samples.editorOn Samples.longDocument 10 31)) 1000
    = [Preview.postMessage (Preview.changeTextEditorSelection line ratio)]
    /\ Js.inUnitInterval ratio.
Proof.
  destruct (scroll_handler_ratio_is_bounded
              (Samples.viewOf (Samples.editorOn Samples.longDocument 10 31)) 1000)
    as [_ Hposts].
  destruct (Hposts eq_refl ltac:(simpl; lia) (mk_is_Some _ _ eq_refl))
    as (line & ratio & Heffects & _ & Hunit).
  exists line, ratio. split; [exact Heffects | exact Hunit].
Defined.
